(** * DocMate: the recording / transcription / generation session of [src/App.tsx]

    The React component [App] is embedded as a record of its [useState] cells
    and [useRef] cells, together with the part of the browser it drives (live
    interval timers, pending timeouts, and the trace of platform calls).  Every
    handler of the component is a computation in a small state-and-exception
    monad, written statement by statement after the TypeScript source. *)

From Stdlib Require Import String Ascii List Bool Arith PArith NArith Lia.
Import ListNotations.
Open Scope string_scope.

(** ** JavaScript strings

    A string is a sequence of code units; the development covers the code
    units [0..255], for which [String.prototype.trim] removes exactly the
    characters listed in [whiteSpace]. *)

Module JS.

Definition whiteSpace : list ascii :=
  ["009"; "010"; "011"; "012"; "013"; " "; "160"]%char.

Definition isWhiteSpace (c : ascii) : bool :=
  existsb (Ascii.eqb c) whiteSpace.

Fixpoint trimStart (s : string) : string :=
  match s with
  | EmptyString => EmptyString
  | String c s' => if isWhiteSpace c then trimStart s' else s
  end.

Fixpoint trimEnd (s : string) : string :=
  match s with
  | EmptyString => EmptyString
  | String c s' =>
      match trimEnd s' with
      | EmptyString => if isWhiteSpace c then EmptyString else String c EmptyString
      | t => String c t
      end
  end.

Definition trim (s : string) : string := trimEnd (trimStart s).

(** [ToBoolean] on a string: only the empty string is falsy. *)
Definition truthy (s : string) : bool :=
  match s with
  | EmptyString => false
  | String _ _ => true
  end.

(** [ToBoolean] on a value that may be [undefined]. *)
Definition truthy_opt (v : option string) : bool :=
  match v with
  | None => false
  | Some s => truthy s
  end.

(** [v || ''] on a value that may be [undefined]. *)
Definition or_empty (v : option string) : string :=
  match v with
  | None => ""
  | Some s => if truthy s then s else ""
  end.

(** [parts.join('')] *)
Definition join (parts : list string) : string :=
  fold_right append "" parts.

(** Every code unit of the string is white space. *)
Fixpoint blank (s : string) : bool :=
  match s with
  | EmptyString => true
  | String c s' => isWhiteSpace c && blank s'
  end.

(** [s.startsWith(sub)] *)
Fixpoint startsWith (s sub : string) {struct sub} : bool :=
  match sub with
  | EmptyString => true
  | String c sub' =>
      match s with
      | EmptyString => false
      | String c' s' => Ascii.eqb c c' && startsWith s' sub'
      end
  end.

(** [s.includes(sub)]: [sub] occurs somewhere in [s]. *)
Fixpoint includes (s sub : string) : bool :=
  startsWith s sub
  || match s with
     | EmptyString => false
     | String _ s' => includes s' sub
     end.

(** The decimal digit [d], for [d] below ten. *)
Definition digit (d : nat) : ascii := ascii_of_nat (48 + d).

(** [n.toString()] for a non-negative integer: its decimal digits, written
    from the last one, [n + 1] steps being enough for all of them. *)
Fixpoint toString_from (steps n : nat) (acc : string) : string :=
  match steps with
  | O => acc
  | S steps' =>
      let acc' := String (digit (n mod 10)) acc in
      if Nat.ltb n 10 then acc' else toString_from steps' (n / 10) acc'
  end.

Definition toString (n : nat) : string := toString_from (S n) n "".

(** The first [k] code units of [pad] repeated for ever; [rest] is what is
    left of the current copy. *)
Fixpoint fill (k : nat) (pad rest : string) : string :=
  match k with
  | O => ""
  | S k' =>
      match rest with
      | String c rest' => String c (fill k' pad rest')
      | EmptyString =>
          match pad with
          | String c pad' => String c (fill k' pad pad')
          | EmptyString => ""
          end
      end
  end.

(** [s.padStart(targetLength, padString)] *)
Definition padStart (targetLength : nat) (padString s : string) : string :=
  if Nat.leb targetLength (String.length s) then s
  else fill (targetLength - String.length s) padString padString ++ s.

End JS.

(** ** Platform values seen by the component *)

(** The value carried by a rejected promise or a thrown exception. *)
Definition Error := string.

(** Handles returned by [setInterval] and [setTimeout]: integers greater
    than zero. *)
Definition TimerId := positive.

Module DOM.

(** [MediaRecorder.state] *)
Inductive RecordingState := inactive | recording | paused.

Record SpeechRecognitionAlternative := { transcript : string }.

(** A [SpeechRecognitionResult] holds at least one alternative: [item0] is
    what [results[i][0]] reads. *)
Record SpeechRecognitionResult := {
  item0 : SpeechRecognitionAlternative;
  alternatives : list SpeechRecognitionAlternative;
  isFinal : bool
}.

Record SpeechRecognitionEvent := {
  resultIndex : nat;
  results : list SpeechRecognitionResult
}.

(** The recognizer object created on mount, with the three properties the
    component assigns. *)
Record SpeechRecognition := {
  continuous : bool;
  interimResults : bool;
  lang : string
}.

(** A [Blob] of recorded audio, by its size. *)
Record Blob := { size : nat }.

End DOM.

Module Groq.

Record Delta := { content : option string }.
Record Choice := { delta : option Delta }.
Record ChatCompletionChunk := { choices : list Choice }.

(** What [groq.chat.completions.create] and the stream it returns do: the
    request may be rejected; otherwise [chunks] are delivered in order and
    the stream then ends ([stream_end = None]) or throws. *)
Record Response := {
  create_rejects : option Error;
  chunks : list ChatCompletionChunk;
  stream_end : option Error
}.

End Groq.

(** The calls the component makes on the platform, in the order made.  Of
    the completion request the trace keeps the model and the prompt; its
    other fields are constants of the source. *)
Inductive Effect :=
| GetUserMedia (echoCancellation noiseSuppression : bool) (sampleRate : N)
| NewMediaRecorder (mimeType : string)
| RecorderStart (timeslice : N)
| RecorderStop
| RecognitionStart (r : DOM.SpeechRecognition)
| RecognitionStop
| SetInterval (id : TimerId) (ms : N)
| ClearInterval (id : TimerId)
| SetTimeout (id : TimerId) (ms : N)
| ChatCompletionsCreate (model prompt : string)
| ClipboardWriteText (text : string)
| ConsoleError (msg : string) (e : Error)
| ConsoleLog (v : option string).

(** ** The component *)

Record App := {
  (* useState *)
  isRecording : bool;
  transcript : string;
  notes : string;
  status : string;
  isLoading : bool;
  recordingTime : nat;
  isTranscribing : bool;
  (* useRef *)
  mediaRecorderRef : option DOM.RecordingState;
  audioChunksRef : list DOM.Blob;
  recognitionRef : option DOM.SpeechRecognition;
  intervalRef : option TimerId;
  (* browser *)
  intervals : list TimerId;
  timeouts : list (TimerId * N);
  nextTimer : TimerId;
  effects : list Effect
}.

Definition set_isRecording (v : bool) (a : App) : App :=
  {| isRecording := v; transcript := transcript a; notes := notes a;
     status := status a; isLoading := isLoading a;
     recordingTime := recordingTime a; isTranscribing := isTranscribing a;
     mediaRecorderRef := mediaRecorderRef a; audioChunksRef := audioChunksRef a;
     recognitionRef := recognitionRef a; intervalRef := intervalRef a;
     intervals := intervals a; timeouts := timeouts a;
     nextTimer := nextTimer a; effects := effects a |}.

Definition set_transcript (v : string) (a : App) : App :=
  {| isRecording := isRecording a; transcript := v; notes := notes a;
     status := status a; isLoading := isLoading a;
     recordingTime := recordingTime a; isTranscribing := isTranscribing a;
     mediaRecorderRef := mediaRecorderRef a; audioChunksRef := audioChunksRef a;
     recognitionRef := recognitionRef a; intervalRef := intervalRef a;
     intervals := intervals a; timeouts := timeouts a;
     nextTimer := nextTimer a; effects := effects a |}.

Definition set_notes (v : string) (a : App) : App :=
  {| isRecording := isRecording a; transcript := transcript a; notes := v;
     status := status a; isLoading := isLoading a;
     recordingTime := recordingTime a; isTranscribing := isTranscribing a;
     mediaRecorderRef := mediaRecorderRef a; audioChunksRef := audioChunksRef a;
     recognitionRef := recognitionRef a; intervalRef := intervalRef a;
     intervals := intervals a; timeouts := timeouts a;
     nextTimer := nextTimer a; effects := effects a |}.

Definition set_status (v : string) (a : App) : App :=
  {| isRecording := isRecording a; transcript := transcript a; notes := notes a;
     status := v; isLoading := isLoading a;
     recordingTime := recordingTime a; isTranscribing := isTranscribing a;
     mediaRecorderRef := mediaRecorderRef a; audioChunksRef := audioChunksRef a;
     recognitionRef := recognitionRef a; intervalRef := intervalRef a;
     intervals := intervals a; timeouts := timeouts a;
     nextTimer := nextTimer a; effects := effects a |}.

Definition set_isLoading (v : bool) (a : App) : App :=
  {| isRecording := isRecording a; transcript := transcript a; notes := notes a;
     status := status a; isLoading := v;
     recordingTime := recordingTime a; isTranscribing := isTranscribing a;
     mediaRecorderRef := mediaRecorderRef a; audioChunksRef := audioChunksRef a;
     recognitionRef := recognitionRef a; intervalRef := intervalRef a;
     intervals := intervals a; timeouts := timeouts a;
     nextTimer := nextTimer a; effects := effects a |}.

Definition set_recordingTime (v : nat) (a : App) : App :=
  {| isRecording := isRecording a; transcript := transcript a; notes := notes a;
     status := status a; isLoading := isLoading a;
     recordingTime := v; isTranscribing := isTranscribing a;
     mediaRecorderRef := mediaRecorderRef a; audioChunksRef := audioChunksRef a;
     recognitionRef := recognitionRef a; intervalRef := intervalRef a;
     intervals := intervals a; timeouts := timeouts a;
     nextTimer := nextTimer a; effects := effects a |}.

Definition set_isTranscribing (v : bool) (a : App) : App :=
  {| isRecording := isRecording a; transcript := transcript a; notes := notes a;
     status := status a; isLoading := isLoading a;
     recordingTime := recordingTime a; isTranscribing := v;
     mediaRecorderRef := mediaRecorderRef a; audioChunksRef := audioChunksRef a;
     recognitionRef := recognitionRef a; intervalRef := intervalRef a;
     intervals := intervals a; timeouts := timeouts a;
     nextTimer := nextTimer a; effects := effects a |}.

Definition set_mediaRecorderRef (v : option DOM.RecordingState) (a : App) : App :=
  {| isRecording := isRecording a; transcript := transcript a; notes := notes a;
     status := status a; isLoading := isLoading a;
     recordingTime := recordingTime a; isTranscribing := isTranscribing a;
     mediaRecorderRef := v; audioChunksRef := audioChunksRef a;
     recognitionRef := recognitionRef a; intervalRef := intervalRef a;
     intervals := intervals a; timeouts := timeouts a;
     nextTimer := nextTimer a; effects := effects a |}.

Definition set_audioChunksRef (v : list DOM.Blob) (a : App) : App :=
  {| isRecording := isRecording a; transcript := transcript a; notes := notes a;
     status := status a; isLoading := isLoading a;
     recordingTime := recordingTime a; isTranscribing := isTranscribing a;
     mediaRecorderRef := mediaRecorderRef a; audioChunksRef := v;
     recognitionRef := recognitionRef a; intervalRef := intervalRef a;
     intervals := intervals a; timeouts := timeouts a;
     nextTimer := nextTimer a; effects := effects a |}.

Definition set_intervalRef (v : option TimerId) (a : App) : App :=
  {| isRecording := isRecording a; transcript := transcript a; notes := notes a;
     status := status a; isLoading := isLoading a;
     recordingTime := recordingTime a; isTranscribing := isTranscribing a;
     mediaRecorderRef := mediaRecorderRef a; audioChunksRef := audioChunksRef a;
     recognitionRef := recognitionRef a; intervalRef := v;
     intervals := intervals a; timeouts := timeouts a;
     nextTimer := nextTimer a; effects := effects a |}.

Definition set_intervals (v : list TimerId) (a : App) : App :=
  {| isRecording := isRecording a; transcript := transcript a; notes := notes a;
     status := status a; isLoading := isLoading a;
     recordingTime := recordingTime a; isTranscribing := isTranscribing a;
     mediaRecorderRef := mediaRecorderRef a; audioChunksRef := audioChunksRef a;
     recognitionRef := recognitionRef a; intervalRef := intervalRef a;
     intervals := v; timeouts := timeouts a;
     nextTimer := nextTimer a; effects := effects a |}.

Definition set_timeouts (v : list (TimerId * N)) (a : App) : App :=
  {| isRecording := isRecording a; transcript := transcript a; notes := notes a;
     status := status a; isLoading := isLoading a;
     recordingTime := recordingTime a; isTranscribing := isTranscribing a;
     mediaRecorderRef := mediaRecorderRef a; audioChunksRef := audioChunksRef a;
     recognitionRef := recognitionRef a; intervalRef := intervalRef a;
     intervals := intervals a; timeouts := v;
     nextTimer := nextTimer a; effects := effects a |}.

Definition set_nextTimer (v : TimerId) (a : App) : App :=
  {| isRecording := isRecording a; transcript := transcript a; notes := notes a;
     status := status a; isLoading := isLoading a;
     recordingTime := recordingTime a; isTranscribing := isTranscribing a;
     mediaRecorderRef := mediaRecorderRef a; audioChunksRef := audioChunksRef a;
     recognitionRef := recognitionRef a; intervalRef := intervalRef a;
     intervals := intervals a; timeouts := timeouts a;
     nextTimer := v; effects := effects a |}.

Definition set_effects (v : list Effect) (a : App) : App :=
  {| isRecording := isRecording a; transcript := transcript a; notes := notes a;
     status := status a; isLoading := isLoading a;
     recordingTime := recordingTime a; isTranscribing := isTranscribing a;
     mediaRecorderRef := mediaRecorderRef a; audioChunksRef := audioChunksRef a;
     recognitionRef := recognitionRef a; intervalRef := intervalRef a;
     intervals := intervals a; timeouts := timeouts a;
     nextTimer := nextTimer a; effects := v |}.

(** ** Handlers as computations

    A handler runs on the component and either completes or throws; state
    changes made before a throw stay made. *)

Inductive Completion (A : Type) :=
| Normal (a : A)
| Thrown (e : Error).
Arguments Normal {A} a.
Arguments Thrown {A} e.

Definition M (A : Type) : Type := App -> Completion A * App.

Definition ret {A} (a : A) : M A := fun st => (Normal a, st).

Definition bind {A B} (m : M A) (k : A -> M B) : M B :=
  fun st =>
    match m st with
    | (Normal a, st') => k a st'
    | (Thrown e, st') => (Thrown e, st')
    end.

Definition throw {A} (e : Error) : M A := fun st => (Thrown e, st).

Definition get {A} (field : App -> A) : M A := fun st => (Normal (field st), st).

Definition modify (f : App -> App) : M unit := fun st => (Normal tt, f st).

(** [try { body } catch (error) { handler }] *)
Definition try_catch {A} (body : M A) (handler : Error -> M A) : M A :=
  fun st =>
    match body st with
    | (Normal a, st') => (Normal a, st')
    | (Thrown e, st') => handler e st'
    end.

(** [try { body } finally { final }] *)
Definition try_finally {A} (body : M A) (final : M unit) : M A :=
  fun st =>
    match body st with
    | (c, st') =>
        match final st' with
        | (Normal _, st'') => (c, st'')
        | (Thrown e, st'') => (Thrown e, st'')
        end
    end.

Declare Scope js_scope.
Delimit Scope js_scope with js.
Notation "x <- m ;; k" := (bind m (fun x => k))
  (at level 100, m at next level, right associativity) : js_scope.
Notation "m ;; k" := (bind m (fun _ => k))
  (at level 100, right associativity) : js_scope.
Open Scope js_scope.

(** The state a handler leaves behind; an exception that escapes a handler is
    dropped by the event loop. *)
Definition exec {A} (m : M A) (st : App) : App := snd (m st).

(** The trace grows at its end. *)
Definition log (e : Effect) : M unit :=
  modify (fun st => set_effects (effects st ++ [e]) st).

(** A platform call: it is recorded, then throws if the platform says so. *)
Definition call (e : Effect) (outcome : option Error) : M unit :=
  log e ;;
  match outcome with
  | None => ret tt
  | Some err => throw err
  end.

(** The state setters of the component. *)
Definition setIsRecording (v : bool) : M unit := modify (set_isRecording v).
Definition setTranscript (f : string -> string) : M unit :=
  modify (fun st => set_transcript (f (transcript st)) st).
Definition setNotes (f : string -> string) : M unit :=
  modify (fun st => set_notes (f (notes st)) st).
Definition setStatus (v : string) : M unit := modify (set_status v).
Definition setIsLoading (v : bool) : M unit := modify (set_isLoading v).
Definition setRecordingTime (f : nat -> nat) : M unit :=
  modify (fun st => set_recordingTime (f (recordingTime st)) st).
Definition setIsTranscribing (v : bool) : M unit := modify (set_isTranscribing v).

(** [setInterval(callback, ms)]: a fresh handle, live until cleared. *)
Definition setInterval (ms : N) : M TimerId :=
  id <- get nextTimer ;;
  modify (set_nextTimer (Pos.succ id)) ;;
  modify (fun st => set_intervals (intervals st ++ [id]) st) ;;
  log (SetInterval id ms) ;;
  ret id.

(** [clearInterval(id)] *)
Definition clearInterval (id : TimerId) : M unit :=
  modify (fun st => set_intervals (remove Pos.eq_dec id (intervals st)) st) ;;
  log (ClearInterval id).

(** [setTimeout(callback, ms)]: a fresh handle, pending until it fires. *)
Definition setTimeout (ms : N) : M TimerId :=
  id <- get nextTimer ;;
  modify (set_nextTimer (Pos.succ id)) ;;
  modify (fun st => set_timeouts (timeouts st ++ [(id, ms)]) st) ;;
  log (SetTimeout id ms) ;;
  ret id.

(** ** [useEffect(..., [])]: the recognizer is created on mount when the
    browser offers the Web Speech API; the initial values of the state and
    ref cells are those given to [useState] and [useRef]. *)

Definition mount (speechRecognitionInWindow : bool) : App :=
  {| isRecording := false;
     transcript := "";
     notes := "";
     status := "Ready to record";
     isLoading := false;
     recordingTime := 0;
     isTranscribing := false;
     mediaRecorderRef := None;
     audioChunksRef := [];
     recognitionRef :=
       if speechRecognitionInWindow
       then Some {| DOM.continuous := true;
                    DOM.interimResults := true;
                    DOM.lang := "en-US" |}
       else None;
     intervalRef := None;
     intervals := [];
     timeouts := [];
     nextTimer := 1%positive;
     effects := [] |}.

(** *** [recognitionRef.current.onresult] *)

(** The [for] loop of the handler: [n] iterations remain, [i] is the loop
    index, [finalTranscript] the local accumulator. *)
Fixpoint onresult_for (n i : nat) (event : DOM.SpeechRecognitionEvent)
    (finalTranscript : string) : string :=
  match n with
  | O => finalTranscript
  | S n' =>
      match nth_error (DOM.results event) i with
      | None => finalTranscript
      | Some r =>
          let transcriptPart := DOM.transcript (DOM.item0 r) in
          onresult_for n' (S i) event
            (if DOM.isFinal r
             then finalTranscript ++ (transcriptPart ++ " ")
             else finalTranscript)
      end
  end.

Definition onresult (event : DOM.SpeechRecognitionEvent) : M unit :=
  let finalTranscript :=
    onresult_for (length (DOM.results event) - DOM.resultIndex event)
                 (DOM.resultIndex event) event "" in
  setTranscript (fun prev => prev ++ finalTranscript).

(** *** [recognitionRef.current.onerror] and [onend] *)

Definition onerror (error : Error) : M unit :=
  log (ConsoleError "Speech recognition error:" error) ;;
  setStatus ("Transcription error: " ++ error) ;;
  setIsTranscribing false.

Definition onend : M unit :=
  setIsTranscribing false ;;
  setStatus "Transcription complete".

(** *** The handlers [startRecording] puts on the recorder *)

Definition ondataavailable (data : DOM.Blob) : M unit :=
  if Nat.ltb 0 (DOM.size data)
  then modify (fun st => set_audioChunksRef (audioChunksRef st ++ [data]) st)
  else ret tt.

Definition onstop : M unit :=
  setStatus "Recording saved. Starting transcription..." ;;
  r <- get recognitionRef ;;
  match r with
  | Some _ => log RecognitionStop
  | None => ret tt
  end.

(** *** [startRecording] *)

(** How the platform answers the calls of one [startRecording]: for each
    call, [None] when it returns, [Some e] when it throws (or, for
    [getUserMedia], when its promise is rejected). *)
Record Platform := {
  getUserMedia : option Error;
  newMediaRecorder : option Error;
  mediaRecorder_start : option Error;
  recognition_start : option Error
}.

Definition startRecording (p : Platform) : M unit :=
  try_catch
    (call (GetUserMedia true true 44100%N) (getUserMedia p) ;;
     call (NewMediaRecorder "audio/webm;codecs=opus") (newMediaRecorder p) ;;
     modify (set_mediaRecorderRef (Some DOM.inactive)) ;;
     modify (set_audioChunksRef []) ;;
     call (RecorderStart 1000%N) (mediaRecorder_start p) ;;
     modify (set_mediaRecorderRef (Some DOM.recording)) ;;
     setIsRecording true ;;
     setRecordingTime (fun _ => 0) ;;
     setTranscript (fun _ => "") ;;
     setNotes (fun _ => "") ;;
     setStatus "Recording in progress..." ;;
     r <- get recognitionRef ;;
     match r with
     | Some rec =>
         call (RecognitionStart rec) (recognition_start p) ;;
         setIsTranscribing true
     | None => ret tt
     end ;;
     id <- setInterval 1000%N ;;
     modify (set_intervalRef (Some id)))
    (fun error =>
       log (ConsoleError "Error accessing microphone:" error) ;;
       setStatus "Error: Could not access microphone. Please check permissions.").

(** The callback given to [setInterval]; it runs only for a live interval. *)
Definition tick (id : TimerId) : M unit :=
  live <- get intervals ;;
  if existsb (Pos.eqb id) live
  then setRecordingTime (fun prev => prev + 1)
  else ret tt.

(** *** [stopRecording] *)

Definition stopRecording : M unit :=
  mr <- get mediaRecorderRef ;;
  match mr with
  | Some DOM.recording =>
      log RecorderStop ;;
      modify (set_mediaRecorderRef (Some DOM.inactive)) ;;
      setIsRecording false ;;
      i <- get intervalRef ;;
      match i with
      | Some id =>
          clearInterval id ;;
          modify (set_intervalRef None)
      | None => ret tt
      end ;;
      r <- get recognitionRef ;;
      match r with
      | Some _ => log RecognitionStop
      | None => ret tt
      end ;;
      setStatus "Processing recording..."
  | _ => ret tt
  end.

(** *** [generateClinicalNotes] *)

(** The two places a credential is read from. *)
Record Credentials := {
  VITE_GROQ_API_KEY : option string;
  groq_apiKey : option string
}.

(** The template literal, character for character as the source file holds
    it; a character beyond code unit 255 is held by the bytes of its UTF-8
    form. *)
Definition clinicalPrompt (transcript : string) : string :=
  "Convert doctorâ€“patient transcripts into clinical notes in SOAP format (Subjective, Objective, Assessment, Plan).
Always output in English. Detect and translate if input is in another language, and note the original language.
Summarize symptoms, history, exam findings, assessment, and plan. Leave space for doctor to refine Assessment/Plan.
If past consultations are mentioned, include a Consultation Pattern Summary (recurring issues, changes, response to treatment).
Keep tone concise, clinical, legally compliant. Flag uncertainties with <uncertain>.
Remove all personal information.

Here is the full conversation transcribed between the doctor and patient:
" ++ transcript.

(** [chunk.choices[0]?.delta?.content || ''] *)
Definition chunk_content (chunk : Groq.ChatCompletionChunk) : string :=
  JS.or_empty
    match hd_error (Groq.choices chunk) with
    | None => None
    | Some choice =>
        match Groq.delta choice with
        | None => None
        | Some d => Groq.content d
        end
    end.

(** The body of the [for await] loop. *)
Definition onchunk (chunk : Groq.ChatCompletionChunk) : M unit :=
  let content := chunk_content chunk in
  if JS.truthy content
  then setNotes (fun prev => prev ++ content)
  else ret tt.

(** [for await (const chunk of stream) body]: the chunks in order, then the
    end of the stream or the error it throws. *)
Fixpoint for_await (chunks : list Groq.ChatCompletionChunk)
    (stream_end : option Error)
    (body : Groq.ChatCompletionChunk -> M unit) : M unit :=
  match chunks with
  | [] =>
      match stream_end with
      | None => ret tt
      | Some e => throw e
      end
  | chunk :: rest => body chunk ;; for_await rest stream_end body
  end.

Definition generateClinicalNotes (env : Credentials) (r : Groq.Response) : M unit :=
  transcript <- get transcript ;;
  if negb (JS.truthy (JS.trim transcript)) then
    setStatus "Please record and transcribe audio first."
  else if negb (JS.truthy_opt (VITE_GROQ_API_KEY env))
          && negb (JS.truthy_opt (groq_apiKey env)) then
    setStatus "Error: Please configure your Groq API key in environment variables."
  else
    setStatus "Generating clinical notes..." ;;
    setIsLoading true ;;
    log (ConsoleLog (VITE_GROQ_API_KEY env)) ;;
    setNotes (fun _ => "") ;;
    try_finally
      (try_catch
         (call (ChatCompletionsCreate "openai/gpt-oss-20b" (clinicalPrompt transcript))
               (Groq.create_rejects r) ;;
          for_await (Groq.chunks r) (Groq.stream_end r) onchunk ;;
          setStatus "Clinical notes generated successfully!")
         (fun error =>
            log (ConsoleError "Error generating notes:" error) ;;
            setStatus "Error generating notes. Please check your API key and try again."))
      (setIsLoading false).

(** *** [copyToClipboard] *)

(** [writeText] is [None] when the clipboard promise resolves; a rejection
    has no handler and leaves the component as it is. *)
Definition copyToClipboard (text type : string) (writeText : option Error) : M unit :=
  log (ClipboardWriteText text) ;;
  match writeText with
  | None =>
      setStatus (type ++ " copied to clipboard!") ;;
      _ <- setTimeout 2000%N ;;
      ret tt
  | Some _ => ret tt
  end.

(** The callback given to [setTimeout]; it runs once, when its timeout is
    pending. *)
Definition ontimeout (id : TimerId) : M unit :=
  pending <- get timeouts ;;
  if existsb (fun t => Pos.eqb id (fst t)) pending
  then
    modify (fun st =>
      set_timeouts (filter (fun t => negb (Pos.eqb id (fst t))) (timeouts st)) st) ;;
    setStatus "Ready"
  else ret tt.

(** *** [startRecording] between its suspension points

    [startRecording] is suspended at [await getUserMedia(...)]: the call
    makes the request and returns; the rest of the [try], or the [catch],
    runs when the request settles, after whatever events were handled in
    between.  [startRecording_request] is the first segment and
    [startRecording_resume] the second, [getUserMedia p] telling how the
    request settled. *)

Definition startRecording_request : M unit :=
  log (GetUserMedia true true 44100%N).

Definition startRecording_resume (p : Platform) : M unit :=
  try_catch
    (match getUserMedia p with
     | None => ret tt
     | Some error => throw error
     end ;;
     call (NewMediaRecorder "audio/webm;codecs=opus") (newMediaRecorder p) ;;
     modify (set_mediaRecorderRef (Some DOM.inactive)) ;;
     modify (set_audioChunksRef []) ;;
     call (RecorderStart 1000%N) (mediaRecorder_start p) ;;
     modify (set_mediaRecorderRef (Some DOM.recording)) ;;
     setIsRecording true ;;
     setRecordingTime (fun _ => 0) ;;
     setTranscript (fun _ => "") ;;
     setNotes (fun _ => "") ;;
     setStatus "Recording in progress..." ;;
     r <- get recognitionRef ;;
     match r with
     | Some rec =>
         call (RecognitionStart rec) (recognition_start p) ;;
         setIsTranscribing true
     | None => ret tt
     end ;;
     id <- setInterval 1000%N ;;
     modify (set_intervalRef (Some id)))
    (fun error =>
       log (ConsoleError "Error accessing microphone:" error) ;;
       setStatus "Error: Could not access microphone. Please check permissions.").

(** *** [generateClinicalNotes] between its suspension points

    [generateClinicalNotes] is suspended at the [await] of the request and
    at every step of the [for await] loop.  [generation_start] is what runs
    up to the first suspension, [onchunk] what one delivered chunk runs, and
    [generation_settle] what runs when the request is rejected or the stream
    ends or throws: the rest of the [try], or the [catch], and then the
    [finally]. *)

Definition generation_start (env : Credentials) : M unit :=
  transcript <- get transcript ;;
  if negb (JS.truthy (JS.trim transcript)) then
    setStatus "Please record and transcribe audio first."
  else if negb (JS.truthy_opt (VITE_GROQ_API_KEY env))
          && negb (JS.truthy_opt (groq_apiKey env)) then
    setStatus "Error: Please configure your Groq API key in environment variables."
  else
    setStatus "Generating clinical notes..." ;;
    setIsLoading true ;;
    log (ConsoleLog (VITE_GROQ_API_KEY env)) ;;
    setNotes (fun _ => "") ;;
    log (ChatCompletionsCreate "openai/gpt-oss-20b" (clinicalPrompt transcript)).

Definition generation_settle (outcome : option Error) : M unit :=
  match outcome with
  | None => setStatus "Clinical notes generated successfully!"
  | Some error =>
      log (ConsoleError "Error generating notes:" error) ;;
      setStatus "Error generating notes. Please check your API key and try again."
  end ;;
  setIsLoading false.

(** ** What is rendered from the state *)

(** [formatTime] *)
Definition formatTime (seconds : nat) : string :=
  let mins := seconds / 60 in
  let secs := seconds mod 60 in
  JS.padStart 2 "0" (JS.toString mins) ++ ":" ++ JS.padStart 2 "0" (JS.toString secs).

Inductive Icon := AlertCircle | CheckCircle | Spinner.

(** The icon beside the status line; [None] where the source renders
    [null]. *)
Definition statusIcon (st : App) : option Icon :=
  if JS.includes (status st) "Error" then Some AlertCircle
  else if JS.includes (status st) "complete" || JS.includes (status st) "generated"
       then Some CheckCircle
  else if isLoading st then Some Spinner
  else None.

(** The elapsed time, shown only while recording. *)
Definition timerShown (st : App) : option string :=
  if isRecording st then Some (formatTime (recordingTime st)) else None.

(** What the clinical-notes panel holds: the two expressions
    [isLoading && !notes && spinner] and
    [notes || (!isLoading && placeholder)], in this order. *)
Inductive NotesItem :=
| GeneratingSpinner
| NotesText (text : string)
| NotesPlaceholder.

Definition notesPanel (st : App) : list NotesItem :=
  (if isLoading st && negb (JS.truthy (notes st)) then [GeneratingSpinner] else [])
  ++ (if JS.truthy (notes st) then [NotesText (notes st)]
      else if negb (isLoading st) then [NotesPlaceholder]
      else []).

(** ** The presentation layer: which handler a click reaches *)

(** A disabled button delivers no click. *)
Definition click (disabled : bool) (handler : M unit) : M unit :=
  if disabled then ret tt else handler.

(** The record button: [disabled={isLoading}],
    [onClick={isRecording ? stopRecording : startRecording}]. *)
Definition recordButton (p : Platform) : M unit :=
  disabled <- get isLoading ;;
  rec <- get isRecording ;;
  click disabled (if rec then stopRecording else startRecording p).

(** The same click, up to the suspension of [startRecording]: the capture
    request is made and left pending. *)
Definition recordButton_pending : M unit :=
  disabled <- get isLoading ;;
  rec <- get isRecording ;;
  click disabled (if rec then stopRecording else startRecording_request).

(** The generate button:
    [disabled={isLoading || !transcript.trim() || isRecording}],
    [onClick={generateClinicalNotes}]. *)
Definition generateButton_disabled (st : App) : bool :=
  isLoading st || negb (JS.truthy (JS.trim (transcript st))) || isRecording st.

Definition generateButton (env : Credentials) : M unit :=
  disabled <- get generateButton_disabled ;;
  click disabled (generation_start env).

(** The two copy buttons, each rendered only when its text is non-empty. *)
Definition copyTranscriptButton (writeText : option Error) : M unit :=
  text <- get transcript ;;
  click (negb (JS.truthy text)) (copyToClipboard text "Transcript" writeText).

Definition copyNotesButton (writeText : option Error) : M unit :=
  text <- get notes ;;
  click (negb (JS.truthy text)) (copyToClipboard text "Clinical notes" writeText).

(** ** The event loop

    One event is one click or one callback from the platform; events are
    handled one at a time, to completion.  A capture request stays pending
    across events, from the click that makes it ([ClickRecordPending]) to
    the event that settles it ([CaptureSettles]); [ClickRecord p] is the
    click whose request, if it makes one, settles with [p] before any other
    event is handled.  A generation stays in flight across events, from the
    click that starts it to the event that settles it.  The loop does not
    count the requests pending: it admits a settling at any time, and so
    every sequence of events the browser can deliver, and more.  A recorder
    that a later start has replaced in [mediaRecorderRef] keeps its
    handlers: its data reach [ondataavailable] as those of the recorder held
    do ([RecorderData]), and its [stop] event runs [onstop] without a change
    to the recorder held ([ReplacedRecorderStopped]); the loop does not
    count the recorders replaced either. *)

Inductive Event :=
| ClickRecord (p : Platform)
| ClickRecordPending
| CaptureSettles (p : Platform)
| ClickGenerate (env : Credentials)
| StreamChunk (chunk : Groq.ChatCompletionChunk)
| StreamSettles (outcome : option Error)
| ClickCopyTranscript (writeText : option Error)
| ClickCopyNotes (writeText : option Error)
| RecognitionResult (event : DOM.SpeechRecognitionEvent)
| RecognitionError (error : Error)
| RecognitionEnd
| RecorderData (data : DOM.Blob)
| RecorderStopped
| ReplacedRecorderStopped
| IntervalFires (id : TimerId)
| TimeoutFires (id : TimerId).

(** Callbacks of the recognizer exist only when the recognizer does, those
    of the recorder only once a recorder has been created, and those of the
    generation stream only while a generation is in flight, which is exactly
    while [isLoading] is set.  The recorder's [stop] event is fired once the
    recorder is inactive, whether the component stopped it or the platform
    did (its tracks ended): the state the component then reads is
    [inactive]. *)
Definition handle (ev : Event) : M unit :=
  match ev with
  | ClickRecord p => recordButton p
  | ClickRecordPending => recordButton_pending
  | CaptureSettles p => startRecording_resume p
  | ClickGenerate env => generateButton env
  | StreamChunk chunk =>
      inflight <- get isLoading ;;
      if inflight then onchunk chunk else ret tt
  | StreamSettles outcome =>
      inflight <- get isLoading ;;
      if inflight then generation_settle outcome else ret tt
  | ClickCopyTranscript w => copyTranscriptButton w
  | ClickCopyNotes w => copyNotesButton w
  | RecognitionResult event =>
      r <- get recognitionRef ;;
      match r with Some _ => onresult event | None => ret tt end
  | RecognitionError error =>
      r <- get recognitionRef ;;
      match r with Some _ => onerror error | None => ret tt end
  | RecognitionEnd =>
      r <- get recognitionRef ;;
      match r with Some _ => onend | None => ret tt end
  | RecorderData data =>
      mr <- get mediaRecorderRef ;;
      match mr with Some _ => ondataavailable data | None => ret tt end
  | RecorderStopped =>
      mr <- get mediaRecorderRef ;;
      match mr with
      | Some _ => modify (set_mediaRecorderRef (Some DOM.inactive)) ;; onstop
      | None => ret tt
      end
  | ReplacedRecorderStopped =>
      mr <- get mediaRecorderRef ;;
      match mr with Some _ => onstop | None => ret tt end
  | IntervalFires id => tick id
  | TimeoutFires id => ontimeout id
  end.

Definition step (st : App) (ev : Event) : App := exec (handle ev) st.

Definition run (evs : list Event) (st : App) : App := fold_left step evs st.

(** A state the event loop reaches: what some sequence of events leaves
    after mounting. *)
Definition reachable (st : App) : Prop :=
  exists speech evs, st = run evs (mount speech).

(** ** Vocabulary of the properties *)

(** A platform on which every call of [startRecording] returns. *)
Definition granted : Platform :=
  {| getUserMedia := None; newMediaRecorder := None;
     mediaRecorder_start := None; recognition_start := None |}.

(** What one final entry adds to the transcript: its text and one space. *)
Definition segment (r : DOM.SpeechRecognitionResult) : string :=
  DOM.transcript (DOM.item0 r) ++ " ".

(** The entries of an event that the handler visits: those from
    [resultIndex] on. *)
Definition reported (event : DOM.SpeechRecognitionEvent)
  : list DOM.SpeechRecognitionResult :=
  skipn (DOM.resultIndex event) (DOM.results event).

Definition final_segments (event : DOM.SpeechRecognitionEvent) : list string :=
  map segment (filter DOM.isFinal (reported event)).

(** The transcript as the specification words it: every entry of every
    event that is marked final, in delivery order. *)
Definition spec_Transcript (events : list DOM.SpeechRecognitionEvent) : string :=
  JS.join (flat_map (fun e => map segment (filter DOM.isFinal (DOM.results e)))
                    events).

(** Delivering result events to the handler, one after the other. *)
Definition deliver (events : list DOM.SpeechRecognitionEvent) (st : App) : App :=
  fold_left (fun s e => exec (onresult e) s) events st.

(** Some credential is configured. *)
Definition credential_configured (env : Credentials) : bool :=
  JS.truthy_opt (VITE_GROQ_API_KEY env) || JS.truthy_opt (groq_apiKey env).

(** The text the chunks carry, concatenated in order. *)
Definition fragments (chunks : list Groq.ChatCompletionChunk) : string :=
  JS.join (map chunk_content chunks).

(** Delivering chunks to the loop body, one after the other. *)
Definition stream (chunks : list Groq.ChatCompletionChunk) (st : App) : App :=
  fold_left (fun s c => exec (onchunk c) s) chunks st.

(** The recording bookkeeping the handlers maintain: while recording, the
    recorder held by [mediaRecorderRef] is the one recording; [intervalRef]
    holds a handle only while recording; and the only live interval is the
    one [intervalRef] holds. *)
Definition tracked (st : App) : Prop :=
  (isRecording st = true -> mediaRecorderRef st = Some DOM.recording) /\
  (isRecording st = false -> intervalRef st = None) /\
  intervals st = match intervalRef st with Some id => [id] | None => [] end.

Definition is_CaptureSettles (ev : Event) : bool :=
  match ev with CaptureSettles _ => true | _ => false end.

Definition is_RecorderStopped (ev : Event) : bool :=
  match ev with RecorderStopped => true | _ => false end.

(** The events that run the part of [startRecording] which starts a
    recording and resets transcript, note and elapsed seconds. *)
Definition may_start_recording (ev : Event) : bool :=
  match ev with ClickRecord _ | CaptureSettles _ => true | _ => false end.

Definition is_StreamSettles (ev : Event) : bool :=
  match ev with StreamSettles _ => true | _ => false end.

(** The event neither settles a capture request nor stops the recorder
    while a recording is on. *)
Definition orderly (st : App) (ev : Event) : bool :=
  negb (isRecording st) || negb (is_CaptureSettles ev || is_RecorderStopped ev).

Fixpoint orderly_run (evs : list Event) (st : App) : bool :=
  match evs with
  | [] => true
  | ev :: rest => orderly st ev && orderly_run rest (exec (handle ev) st)
  end.

(** The event neither settles the generation nor settles a capture
    request. *)
Definition keeps_generation (ev : Event) : bool :=
  negb (is_StreamSettles ev) && negb (is_CaptureSettles ev).

Definition fires (id : TimerId) (ev : Event) : bool :=
  match ev with TimeoutFires id' => Pos.eqb id id' | _ => false end.

(** The timeout with handle [id] has been set and has not fired yet. *)
Definition pending (id : TimerId) (st : App) : bool :=
  existsb (fun t => Pos.eqb id (fst t)) (timeouts st).

(** The chunks a sequence of events delivers, in order. *)
Definition delivered (evs : list Event) : list Groq.ChatCompletionChunk :=
  flat_map (fun ev => match ev with StreamChunk c => [c] | _ => [] end) evs.

(** Whether the trace holds a call that starts the recognizer, and whether
    it holds a completion request. *)
Definition starts_recognizer (e : Effect) : bool :=
  match e with RecognitionStart _ => true | _ => false end.

Definition requests_completion (e : Effect) : bool :=
  match e with ChatCompletionsCreate _ _ => true | _ => false end.

(** One of the platform calls that come before the recorder records
    throws: the capture request, the recorder's constructor, or its
    [start]. *)
Definition fails_before_recording (p : Platform) : bool :=
  match getUserMedia p, newMediaRecorder p, mediaRecorder_start p with
  | None, None, None => false
  | _, _, _ => true
  end.

(** Every click on the generate button in [evs] comes without a
    credential. *)
Definition no_credential_in (evs : list Event) : bool :=
  forallb (fun ev => match ev with
                     | ClickGenerate env => negb (credential_configured env)
                     | _ => true
                     end) evs.

(** The value of a string of decimal digits. *)
Definition digit_value (c : ascii) : nat := nat_of_ascii c - 48.

Definition decimal_value (s : string) : nat :=
  fold_left (fun v c => 10 * v + digit_value c) (list_ascii_of_string s) 0.

Definition is_digit (c : ascii) : bool :=
  Nat.leb 48 (nat_of_ascii c) && Nat.leb (nat_of_ascii c) 57.

Fixpoint all_digits (s : string) : bool :=
  match s with
  | EmptyString => true
  | String c s' => is_digit c && all_digits s'
  end.

(** On a browser without recognizer: no recognizer, nothing transcribed,
    nothing generated, nothing requested. *)
Definition silent (st : App) : Prop :=
  recognitionRef st = None /\ transcript st = "" /\ notes st = ""
  /\ isLoading st = false /\ isTranscribing st = false
  /\ existsb requests_completion (effects st) = false.

(** The status line is not the message of the first guard of
    [generateClinicalNotes]. *)
Definition never_asked_to_record (st : App) : bool :=
  negb (String.eqb (status st) "Please record and transcribe audio first.").

(** The events that can empty the note: the start of a recording and the
    click on the generate button. *)
Definition resets_notes (ev : Event) : bool :=
  match ev with
  | ClickRecord _ | CaptureSettles _ | ClickGenerate _ => true
  | _ => false
  end.

(** *** Sample values *)

(** The capture is granted, but the browser cannot record the requested
    format. *)
Definition unsupported_recorder : Platform :=
  {| getUserMedia := None; newMediaRecorder := Some "NotSupportedError";
     mediaRecorder_start := None; recognition_start := None |}.

Definition final (text : string) : DOM.SpeechRecognitionResult :=
  {| DOM.item0 := {| DOM.transcript := text |};
     DOM.alternatives := [];
     DOM.isFinal := true |}.

Definition interim (text : string) : DOM.SpeechRecognitionResult :=
  {| DOM.item0 := {| DOM.transcript := text |};
     DOM.alternatives := [];
     DOM.isFinal := false |}.

Definition fragment (text : string) : Groq.ChatCompletionChunk :=
  {| Groq.choices := [ {| Groq.delta := Some {| Groq.content := Some text |} |} ] |}.

(** A recognizer in continuous mode reports the whole list of results each
    time, with [resultIndex] at the first entry that changed. *)
Definition two_utterances : list DOM.SpeechRecognitionEvent :=
  [ {| DOM.resultIndex := 0; DOM.results := [interim "chest"] |};
    {| DOM.resultIndex := 0; DOM.results := [final "chest pain"] |};
    {| DOM.resultIndex := 1;
       DOM.results := [final "chest pain"; interim "two"] |};
    {| DOM.resultIndex := 1;
       DOM.results := [final "chest pain"; final "two days"] |} ].

Definition with_key : Credentials :=
  {| VITE_GROQ_API_KEY := Some "gsk_test"; groq_apiKey := Some "gsk_test" |}.

Definition without_key : Credentials :=
  {| VITE_GROQ_API_KEY := None; groq_apiKey := None |}.

Definition denied : Platform :=
  {| getUserMedia := Some "NotAllowedError"; newMediaRecorder := None;
     mediaRecorder_start := None; recognition_start := None |}.

(** The capture is granted, but the recognizer refuses to start (it is
    still running). *)
Definition recognizer_busy : Platform :=
  {| getUserMedia := None; newMediaRecorder := None;
     mediaRecorder_start := None;
     recognition_start := Some "InvalidStateError" |}.

Definition soap_note : list Groq.ChatCompletionChunk :=
  [fragment "Subjective: "; fragment ""; fragment "patient reports chest pain."].

Definition completes : Groq.Response :=
  {| Groq.create_rejects := None; Groq.chunks := soap_note;
     Groq.stream_end := None |}.

Definition breaks_off : Groq.Response :=
  {| Groq.create_rejects := None; Groq.chunks := [fragment "Subjective: "];
     Groq.stream_end := Some "APIConnectionError" |}.

(** A session recorded and stopped on a browser with a recognizer: its
    transcript is ready. *)
Definition recorded : App :=
  run [ClickRecord granted;
       RecognitionResult {| DOM.resultIndex := 0;
                            DOM.results := [final "chest pain"; interim "two days"] |};
       IntervalFires 1%positive;
       ClickRecord granted;
       RecorderStopped;
       RecognitionEnd]
      (mount true).

(** The same session, still recording. *)
Definition still_recording : App :=
  run [ClickRecord granted;
       RecognitionResult {| DOM.resultIndex := 0;
                            DOM.results := [final "chest pain"; interim "two days"] |};
       IntervalFires 1%positive]
      (mount true).

(** A session recorded and stopped, whose capture request stayed pending
    across an event before it was granted. *)
Definition recorded_after_prompt : App :=
  run [ClickRecordPending;
       RecognitionEnd;
       CaptureSettles granted;
       RecognitionResult {| DOM.resultIndex := 0;
                            DOM.results := [final "chest pain"; interim "two days"] |};
       IntervalFires 1%positive;
       ClickRecordPending;
       RecorderStopped;
       RecognitionEnd]
      (mount true).

(** Two clicks on the record button before the first capture request
    settles, on a browser without recognizer; both requests are then
    granted. *)
Definition started_twice : App :=
  run [ClickRecordPending; ClickRecordPending;
       CaptureSettles granted; CaptureSettles granted]
      (mount false).

(** A recording whose recorder the platform has stopped (the tracks of its
    stream ended). *)
Definition recorder_ended : App :=
  run [ClickRecord granted; IntervalFires 1%positive; RecorderStopped]
      (mount true).

(** A note is being generated from the recorded session, and one fragment
    has arrived. *)
Definition generating : App :=
  run [ClickGenerate with_key; StreamChunk (fragment "Subjective: ")] recorded.

(** ** Unfolding a handler into the state it leaves *)

Ltac js_unfold :=
  cbv [exec bind ret throw get modify try_catch try_finally call log
       setIsRecording setTranscript setNotes setStatus setIsLoading
       setRecordingTime setIsTranscribing setInterval clearInterval setTimeout
       click].

Ltac js_handlers :=
  unfold step, handle, recordButton, recordButton_pending,
    startRecording_request, startRecording_resume,
    generateButton, generateButton_disabled,
    copyTranscriptButton, copyNotesButton, startRecording, stopRecording,
    generation_start, generation_settle, onchunk, onresult, onerror, onend,
    ondataavailable, onstop, tick, ontimeout, copyToClipboard.

(** Split on the innermost scrutinee the goal is stuck on. *)
Ltac js_case :=
  match goal with
  | |- context [match ?x with _ => _ end] =>
      lazymatch x with
      | context [match _ with _ => _ end] => fail
      | _ => destruct x eqn:?
      end
  end.

Ltac js_cases := js_handlers; js_unfold; cbn; repeat (js_case; cbn in * ).

Ltac use_hyps :=
  repeat match goal with
  | H : ?x = ?x -> _ |- _ => specialize (H eq_refl)
  | H : ?P -> _, H' : ?P |- _ => specialize (H H')
  | H : Some ?a = Some ?b |- _ => injection H as H; try subst a; try subst b
  end.

(** ** Strings *)

Lemma append_nil_r (s : string) : s ++ "" = s.
Proof. induction s as [|c s IH]; simpl; [reflexivity | now rewrite IH]. Qed.

Lemma append_assoc (a b c : string) : (a ++ b) ++ c = a ++ (b ++ c).
Proof. induction a as [|x a IH]; simpl; [reflexivity | now rewrite IH]. Qed.

Lemma join_app (l1 l2 : list string) :
  JS.join (l1 ++ l2) = JS.join l1 ++ JS.join l2.
Proof.
  induction l1 as [|x l1 IH]; simpl; [reflexivity|].
  now rewrite IH, append_assoc.
Qed.

Lemma truthy_false (s : string) : JS.truthy s = false -> s = "".
Proof. destruct s; simpl; [reflexivity | discriminate]. Qed.

Lemma truthy_trimEnd (s : string) :
  JS.truthy (JS.trimEnd s) = negb (JS.blank s).
Proof.
  induction s as [|c s IH]; simpl; [reflexivity|].
  destruct (JS.trimEnd s) eqn:E; simpl in IH.
  - destruct (JS.blank s); [|discriminate].
    destruct (JS.isWhiteSpace c); reflexivity.
  - destruct (JS.blank s); [discriminate|].
    now rewrite andb_false_r.
Qed.

Lemma blank_trimStart (s : string) :
  JS.blank (JS.trimStart s) = JS.blank s.
Proof.
  induction s as [|c s IH]; simpl; [reflexivity|].
  destruct (JS.isWhiteSpace c) eqn:E; simpl; [exact IH | now rewrite E].
Qed.

(** [!s.trim()] holds exactly of the strings made of white space only. *)
Lemma not_trim_blank (s : string) :
  negb (JS.truthy (JS.trim s)) = JS.blank s.
Proof.
  unfold JS.trim.
  now rewrite truthy_trimEnd, blank_trimStart, negb_involutive.
Qed.

(** ** Record bookkeeping *)

Lemma set_notes_same (st : App) : set_notes (notes st) st = st.
Proof. now destruct st. Qed.

Lemma set_transcript_same (st : App) : set_transcript (transcript st) st = st.
Proof. now destruct st. Qed.

(** ** The [for] loop of [onresult] *)

Lemma skipn_nth_error {A} (l : list A) (i : nat) (x : A) :
  nth_error l i = Some x -> skipn i l = x :: skipn (S i) l.
Proof.
  revert i; induction l as [|y l IH]; intros [|i] H; simpl in *;
    try discriminate.
  - now injection H as ->.
  - now apply IH.
Qed.

Lemma onresult_for_spec (event : DOM.SpeechRecognitionEvent) :
  forall n i finalTranscript,
    n = length (DOM.results event) - i ->
    onresult_for n i event finalTranscript =
    finalTranscript ++
      JS.join (map segment (filter DOM.isFinal (skipn i (DOM.results event)))).
Proof.
  induction n as [|n IH]; intros i acc Hn; simpl.
  - rewrite skipn_all2 by lia. simpl. now rewrite append_nil_r.
  - destruct (nth_error (DOM.results event) i) as [r|] eqn:Hr.
    + rewrite (skipn_nth_error _ _ _ Hr). simpl.
      rewrite IH by lia.
      destruct (DOM.isFinal r); simpl; [|reflexivity].
      now rewrite append_assoc.
    + apply nth_error_None in Hr. lia.
Qed.

(** One event appends the final segments it reports, and nothing else
    changes. *)
Lemma onresult_spec (event : DOM.SpeechRecognitionEvent) (st : App) :
  exec (onresult event) st =
  set_transcript (transcript st ++ JS.join (final_segments event)) st.
Proof.
  unfold onresult, exec, setTranscript, modify; simpl.
  rewrite onresult_for_spec by reflexivity.
  reflexivity.
Qed.

Lemma deliver_spec (events : list DOM.SpeechRecognitionEvent) :
  forall st,
    deliver events st =
    set_transcript
      (transcript st ++ JS.join (flat_map final_segments events)) st.
Proof.
  unfold deliver.
  induction events as [|e events IH]; intros st; simpl.
  - now rewrite append_nil_r, set_transcript_same.
  - rewrite IH, onresult_spec. simpl.
    now rewrite join_app, append_assoc.
Qed.

(** ** [startRecording] *)

(** A rejected capture request changes the status line and the trace, and
    nothing else. *)
Lemma startRecording_rejected (p : Platform) (e : Error) (st : App) :
  getUserMedia p = Some e ->
  exec (startRecording p) st =
  set_status "Error: Could not access microphone. Please check permissions."
    (set_effects
       (effects st ++ [GetUserMedia true true 44100%N;
                       ConsoleError "Error accessing microphone:" e]) st).
Proof.
  intros H. unfold startRecording. js_unfold. rewrite H. cbn.
  unfold set_status, set_effects; cbn.
  now rewrite <- app_assoc.
Qed.

(** When every platform call returns, [startRecording] leaves this state. *)
Lemma startRecording_granted (st : App) :
  exec (startRecording granted) st =
  {| isRecording := true;
     transcript := "";
     notes := "";
     status := "Recording in progress...";
     isLoading := isLoading st;
     recordingTime := 0;
     isTranscribing :=
       match recognitionRef st with Some _ => true | None => isTranscribing st end;
     mediaRecorderRef := Some DOM.recording;
     audioChunksRef := [];
     recognitionRef := recognitionRef st;
     intervalRef := Some (nextTimer st);
     intervals := intervals st ++ [nextTimer st];
     timeouts := timeouts st;
     nextTimer := Pos.succ (nextTimer st);
     effects :=
       effects st
       ++ [GetUserMedia true true 44100%N;
           NewMediaRecorder "audio/webm;codecs=opus";
           RecorderStart 1000%N]
       ++ match recognitionRef st with
          | Some r => [RecognitionStart r]
          | None => []
          end
       ++ [SetInterval (nextTimer st) 1000%N] |}.
Proof.
  unfold startRecording. js_unfold. cbn.
  destruct (recognitionRef st) eqn:Hr; cbn;
    unfold set_intervalRef; cbn; rewrite ?Hr; f_equal;
    repeat rewrite <- app_assoc; reflexivity.
Qed.

(** [startRecording] neither reads nor writes the loading flag. *)
Lemma startRecording_isLoading (p : Platform) (b : bool) (st : App) :
  exec (startRecording p) (set_isLoading b st) =
  set_isLoading b (exec (startRecording p) st).
Proof.
  unfold startRecording. js_unfold.
  destruct p as [[e1|] [e2|] [e3|] [e4|]]; cbn;
    try reflexivity; destruct (recognitionRef st); reflexivity.
Qed.

(** ** [stopRecording] *)

Lemma stopRecording_recording (st : App) :
  mediaRecorderRef st = Some DOM.recording ->
  exec stopRecording st =
  {| isRecording := false;
     transcript := transcript st;
     notes := notes st;
     status := "Processing recording...";
     isLoading := isLoading st;
     recordingTime := recordingTime st;
     isTranscribing := isTranscribing st;
     mediaRecorderRef := Some DOM.inactive;
     audioChunksRef := audioChunksRef st;
     recognitionRef := recognitionRef st;
     intervalRef := None;
     intervals :=
       match intervalRef st with
       | Some id => remove Pos.eq_dec id (intervals st)
       | None => intervals st
       end;
     timeouts := timeouts st;
     nextTimer := nextTimer st;
     effects :=
       effects st
       ++ [RecorderStop]
       ++ match intervalRef st with
          | Some id => [ClearInterval id]
          | None => []
          end
       ++ match recognitionRef st with
          | Some _ => [RecognitionStop]
          | None => []
          end |}.
Proof.
  intros H. unfold stopRecording. js_unfold. rewrite H. cbn.
  destruct (intervalRef st) eqn:Hi, (recognitionRef st) eqn:Hr;
    repeat (cbn; rewrite ?Hi, ?Hr);
    unfold set_status; repeat (cbn; rewrite ?Hi, ?Hr); f_equal;
    repeat rewrite <- app_assoc; reflexivity.
Qed.

(** Unless the recorder it holds is recording, [stopRecording] does
    nothing. *)
Lemma stopRecording_not_recording (st : App) :
  mediaRecorderRef st <> Some DOM.recording ->
  exec stopRecording st = st.
Proof.
  intros H. unfold stopRecording. js_unfold.
  destruct (mediaRecorderRef st) as [[ | | ]|]; try reflexivity.
  now elim H.
Qed.

(** ** [generateClinicalNotes] *)

Lemma onchunk_spec (chunk : Groq.ChatCompletionChunk) (st : App) :
  onchunk chunk st = (Normal tt, set_notes (notes st ++ chunk_content chunk) st).
Proof.
  unfold onchunk. destruct (JS.truthy (chunk_content chunk)) eqn:E.
  - reflexivity.
  - now rewrite (truthy_false _ E), append_nil_r, set_notes_same.
Qed.

(** The loop appends every fragment, in order, and leaves the rest of the
    state alone; it throws exactly when the stream does. *)
Lemma for_await_onchunk (chunks : list Groq.ChatCompletionChunk) (e : option Error) :
  forall st,
    for_await chunks e onchunk st =
    (match e with None => Normal tt | Some err => Thrown err end,
     set_notes (notes st ++ fragments chunks) st).
Proof.
  unfold fragments.
  induction chunks as [|c chunks IH]; intros st; simpl.
  - rewrite append_nil_r, set_notes_same. now destruct e.
  - unfold bind. rewrite onchunk_spec, IH. simpl.
    now rewrite append_assoc.
Qed.

Lemma stream_spec (chunks : list Groq.ChatCompletionChunk) :
  forall st, stream chunks st = set_notes (notes st ++ fragments chunks) st.
Proof.
  unfold stream, fragments.
  induction chunks as [|c chunks IH]; intros st; simpl.
  - now rewrite append_nil_r, set_notes_same.
  - rewrite IH. unfold exec. rewrite onchunk_spec. simpl.
    now rewrite append_assoc.
Qed.

(** A failed precondition: the call ends in its first segment. *)
Lemma generateClinicalNotes_refused (env : Credentials) (r : Groq.Response) (st : App) :
  JS.blank (transcript st) = true \/ credential_configured env = false ->
  exec (generateClinicalNotes env r) st = exec (generation_start env) st.
Proof.
  unfold credential_configured.
  intros H. unfold generateClinicalNotes, generation_start. js_unfold.
  rewrite not_trim_blank, <- negb_orb.
  destruct (JS.blank (transcript st)); [reflexivity|].
  destruct H as [H|H]; [discriminate|].
  now rewrite H.
Qed.

(** Otherwise the call is its segments, one after the other: the start, the
    chunks the stream delivers, and the settling. *)
Lemma generateClinicalNotes_segments (env : Credentials) (r : Groq.Response) (st : App) :
  JS.blank (transcript st) = false ->
  credential_configured env = true ->
  exec (generateClinicalNotes env r) st =
  match Groq.create_rejects r with
  | Some e => exec (generation_settle (Some e)) (exec (generation_start env) st)
  | None =>
      exec (generation_settle (Groq.stream_end r))
           (stream (Groq.chunks r) (exec (generation_start env) st))
  end.
Proof.
  intros Hb Hc. unfold credential_configured in Hc.
  unfold generateClinicalNotes, generation_start, generation_settle.
  js_unfold.
  rewrite not_trim_blank, Hb, <- negb_orb, Hc. cbn -[clinicalPrompt].
  destruct (Groq.create_rejects r) as [e|]; cbn -[clinicalPrompt].
  - reflexivity.
  - rewrite for_await_onchunk, stream_spec.
    destruct (Groq.stream_end r); reflexivity.
Qed.

(** The state the first segment leaves when the preconditions hold. *)
Lemma generation_start_accepted (env : Credentials) (st : App) :
  JS.blank (transcript st) = false ->
  credential_configured env = true ->
  exec (generation_start env) st =
  set_effects
    (effects st ++ [ConsoleLog (VITE_GROQ_API_KEY env);
                    ChatCompletionsCreate "openai/gpt-oss-20b"
                      (clinicalPrompt (transcript st))])
    (set_notes ""
       (set_isLoading true
          (set_status "Generating clinical notes..." st))).
Proof.
  intros Hb Hc. unfold credential_configured in Hc.
  unfold generation_start. js_unfold.
  rewrite not_trim_blank, Hb, <- negb_orb, Hc. cbn -[clinicalPrompt].
  unfold set_effects; cbn -[clinicalPrompt].
  now rewrite <- app_assoc.
Qed.

Lemma generation_start_refused (env : Credentials) (st : App) :
  JS.blank (transcript st) = true \/ credential_configured env = false ->
  exec (generation_start env) st =
  set_status
    (if JS.blank (transcript st)
     then "Please record and transcribe audio first."
     else "Error: Please configure your Groq API key in environment variables.")
    st.
Proof.
  unfold credential_configured.
  intros H. unfold generation_start. js_unfold.
  rewrite not_trim_blank, <- negb_orb.
  destruct (JS.blank (transcript st)); [reflexivity|].
  destruct H as [H|H]; [discriminate|].
  now rewrite H.
Qed.

(** ** The transcript of a recording session *)

Lemma join_final_segments_from_zero (events : list DOM.SpeechRecognitionEvent) :
  Forall (fun e => DOM.resultIndex e = 0) events ->
  JS.join (flat_map final_segments events) = spec_Transcript events.
Proof.
  unfold spec_Transcript.
  induction 1 as [|e events He _ IH]; simpl; [reflexivity|].
  rewrite !join_app, IH.
  unfold final_segments, reported. now rewrite He.
Qed.

(** X4.  Start a recording, then deliver result events that all report from
    index zero: the transcript [onresult] leaves is the concatenation of
    every final entry of every event, each followed by one space, as the
    specification words it.  The handler and the specification differ only
    on events that report from a later index. *)
Theorem spec_Transcript_from_zero
    (st : App) (events : list DOM.SpeechRecognitionEvent) :
  Forall (fun e => DOM.resultIndex e = 0) events ->
  transcript (deliver events (exec (startRecording granted) st))
  = spec_Transcript events.
Proof.
  intros H. rewrite deliver_spec, startRecording_granted.
  now apply join_final_segments_from_zero.
Qed.

Lemma spec_Transcript_from_zero_witness :
  transcript
    (deliver
       [ {| DOM.resultIndex := 0;
            DOM.results := [final "chest pain"; interim "two"] |};
         {| DOM.resultIndex := 0; DOM.results := [final "two days"] |} ]
       (exec (startRecording granted) (mount true)))
  = spec_Transcript
      [ {| DOM.resultIndex := 0;
           DOM.results := [final "chest pain"; interim "two"] |};
        {| DOM.resultIndex := 0; DOM.results := [final "two days"] |} ].
Proof.
  apply (spec_Transcript_from_zero (mount true)
           [ {| DOM.resultIndex := 0;
                DOM.results := [final "chest pain"; interim "two"] |};
             {| DOM.resultIndex := 0; DOM.results := [final "two days"] |} ]).
  repeat constructor.
Defined.

(** C1 (as amended).  Start a recording, then deliver any sequence of result
    events: the transcript is the concatenation, in delivery order, of the
    text of every entry that is marked final among the entries at index
    [resultIndex] or later of each event, each followed by one space.
    Interim entries add nothing, wherever they stand. *)
Theorem transcript_is_reported_finals
    (st : App) (events : list DOM.SpeechRecognitionEvent) :
  transcript (deliver events (exec (startRecording granted) st)) =
  JS.join (flat_map final_segments events).
Proof.
  rewrite deliver_spec, startRecording_granted. reflexivity.
Qed.

(** C1 as stated fails: a recognizer in continuous mode repeats the final
    entries of earlier events below [resultIndex]; the handler skips them,
    the concatenation of every final entry does not. *)
Lemma transcript_skips_entries_below_resultIndex :
  transcript (deliver two_utterances (exec (startRecording granted) (mount true)))
  = "chest pain two days "
  /\ spec_Transcript two_utterances
     = "chest pain chest pain chest pain two days ".
Proof. split; vm_compute; reflexivity. Qed.

(** ** Generating the note *)

(** C2 (as amended).  With a blank transcript or without a credential,
    [generateClinicalNotes] makes no request and changes nothing but the
    status line, which names the failed precondition.  It does not look at
    [isRecording]; it is the generate button that is disabled while
    recording (and while the transcript is blank), so that a click on it
    changes nothing at all. *)
Theorem generateClinicalNotes_precondition_failure
    (env : Credentials) (r : Groq.Response) (st : App) :
  (JS.blank (transcript st) = true \/ credential_configured env = false ->
   exec (generateClinicalNotes env r) st =
   set_status
     (if JS.blank (transcript st)
      then "Please record and transcribe audio first."
      else "Error: Please configure your Groq API key in environment variables.")
     st)
  /\
  (JS.blank (transcript st) = true \/ isRecording st = true ->
   step st (ClickGenerate env) = st).
Proof.
  split; intros H.
  - rewrite generateClinicalNotes_refused by exact H.
    now apply generation_start_refused.
  - unfold step, handle, generateButton, generateButton_disabled. js_unfold.
    rewrite not_trim_blank.
    destruct H as [-> | ->]; now rewrite ?orb_true_r.
Qed.

Lemma generateClinicalNotes_precondition_failure_witness :
  exec (generateClinicalNotes without_key completes) recorded =
  set_status "Error: Please configure your Groq API key in environment variables."
    recorded
  /\ step still_recording (ClickGenerate with_key) = still_recording.
Proof.
  split.
  - exact (proj1 (generateClinicalNotes_precondition_failure
                    without_key completes recorded)
                 (or_intror eq_refl)).
  - exact (proj2 (generateClinicalNotes_precondition_failure
                    with_key completes still_recording)
                 (or_intror eq_refl)).
Defined.

(** C2 as stated fails twice over: called while recording,
    [generateClinicalNotes] sends the request and writes the note; called
    with an empty transcript, it changes the status line. *)
Lemma generateClinicalNotes_not_a_no_op :
  isRecording still_recording = true
  /\ existsb requests_completion
       (effects (exec (generateClinicalNotes with_key completes) still_recording))
     = true
  /\ notes (exec (generateClinicalNotes with_key completes) still_recording)
     = "Subjective: patient reports chest pain."
  /\ status (mount true) = "Ready to record"
  /\ status (exec (generateClinicalNotes with_key completes) (mount true))
     = "Please record and transcribe audio first.".
Proof. repeat split; vm_compute; reflexivity. Qed.





(** ** Starting a recording *)

(** C7.  When the capture request is rejected from an idle session, the
    session stays idle, the status line reports the error, and the only
    platform calls made are the request itself and the error log: no
    recorder is created and the recognizer is not started. *)
Theorem capture_failure_stays_idle (p : Platform) (e : Error) (st : App) :
  getUserMedia p = Some e ->
  isRecording st = false ->
  isRecording (exec (startRecording p) st) = false
  /\ status (exec (startRecording p) st)
     = "Error: Could not access microphone. Please check permissions."
  /\ effects (exec (startRecording p) st)
     = (effects st ++ [GetUserMedia true true 44100%N;
                       ConsoleError "Error accessing microphone:" e])%list
  /\ isTranscribing (exec (startRecording p) st) = isTranscribing st
  /\ mediaRecorderRef (exec (startRecording p) st) = mediaRecorderRef st
  /\ intervals (exec (startRecording p) st) = intervals st.
Proof.
  intros Hp Hr. rewrite (startRecording_rejected p e st Hp).
  repeat split. exact Hr.
Qed.

Lemma capture_failure_stays_idle_witness :
  isRecording (exec (startRecording denied) recorded) = false
  /\ status (exec (startRecording denied) recorded)
     = "Error: Could not access microphone. Please check permissions."
  /\ effects (exec (startRecording denied) recorded)
     = (effects recorded
        ++ [GetUserMedia true true 44100%N;
            ConsoleError "Error accessing microphone:" "NotAllowedError"])%list
  /\ isTranscribing (exec (startRecording denied) recorded)
     = isTranscribing recorded
  /\ mediaRecorderRef (exec (startRecording denied) recorded)
     = mediaRecorderRef recorded
  /\ intervals (exec (startRecording denied) recorded) = intervals recorded.
Proof.
  apply (capture_failure_stays_idle denied "NotAllowedError" recorded);
    reflexivity.
Defined.

(** C10.  A rejected capture request leaves the transcript, the note and
    the elapsed seconds of the previous session as they were. *)
Theorem capture_failure_keeps_previous_session
    (p : Platform) (e : Error) (st : App) :
  getUserMedia p = Some e ->
  transcript (exec (startRecording p) st) = transcript st
  /\ notes (exec (startRecording p) st) = notes st
  /\ recordingTime (exec (startRecording p) st) = recordingTime st.
Proof.
  intros Hp. rewrite (startRecording_rejected p e st Hp).
  repeat split.
Qed.

Lemma capture_failure_keeps_previous_session_witness :
  transcript (exec (startRecording denied) recorded) = "chest pain "
  /\ notes (exec (startRecording denied) recorded) = ""
  /\ recordingTime (exec (startRecording denied) recorded) = 1.
Proof.
  apply (capture_failure_keeps_previous_session denied "NotAllowedError" recorded).
  reflexivity.
Defined.

(** C6 (as amended).  [startRecording] itself does not refuse while a note
    is being generated: it runs as from any other state and never touches
    the loading flag, so that on a granted capture it empties transcript and
    note, zeroes the elapsed seconds and sets [isRecording] while
    [isLoading] stays set.  What refuses is the record button, disabled
    while [isLoading]: a click on it then changes nothing. *)
Theorem startRecording_unguarded_while_generating (p : Platform) (st : App) :
  isLoading st = true ->
  step st (ClickRecord p) = st
  /\ exec (startRecording p) st
     = set_isLoading true (exec (startRecording p) (set_isLoading false st))
  /\ isLoading (exec (startRecording granted) st) = true
  /\ isRecording (exec (startRecording granted) st) = true
  /\ transcript (exec (startRecording granted) st) = ""
  /\ notes (exec (startRecording granted) st) = ""
  /\ recordingTime (exec (startRecording granted) st) = 0.
Proof.
  intros H. split; [|split].
  - unfold step, handle, recordButton. js_unfold. now rewrite H.
  - rewrite <- startRecording_isLoading. f_equal.
    destruct st; cbn in *; now subst.
  - rewrite startRecording_granted. cbn. now rewrite H.
Qed.

Lemma startRecording_unguarded_while_generating_witness :
  step generating (ClickRecord granted) = generating
  /\ exec (startRecording granted) generating
     = set_isLoading true
         (exec (startRecording granted) (set_isLoading false generating))
  /\ isLoading (exec (startRecording granted) generating) = true
  /\ isRecording (exec (startRecording granted) generating) = true
  /\ transcript (exec (startRecording granted) generating) = ""
  /\ notes (exec (startRecording granted) generating) = ""
  /\ recordingTime (exec (startRecording granted) generating) = 0.
Proof.
  apply (startRecording_unguarded_while_generating granted generating).
  reflexivity.
Defined.

(** C6 as stated fails: called while a note is being generated, with one
    fragment already in the note, [startRecording] wipes transcript and
    note and starts recording. *)
Lemma startRecording_not_refused_while_generating :
  isLoading generating = true
  /\ transcript generating = "chest pain "
  /\ notes generating = "Subjective: "
  /\ transcript (exec (startRecording granted) generating) = ""
  /\ notes (exec (startRecording granted) generating) = ""
  /\ isRecording (exec (startRecording granted) generating) = true.
Proof. repeat split; vm_compute; reflexivity. Qed.

(** ** What the event loop preserves *)

Lemma run_app (evs1 evs2 : list Event) (st : App) :
  run (evs1 ++ evs2)%list st = run evs2 (run evs1 st).
Proof. apply fold_left_app. Qed.

Lemma reachable_ind (P : App -> Prop) :
  (forall speech, P (mount speech)) ->
  (forall st ev, P st -> P (step st ev)) ->
  forall st, reachable st -> P st.
Proof.
  intros H0 Hs st (speech & evs & ->).
  induction evs as [|ev evs IH] using rev_ind; [apply H0|].
  rewrite run_app. now apply Hs.
Qed.

(** No handler assigns [recognitionRef] after mount. *)
Lemma step_recognitionRef (st : App) (ev : Event) :
  recognitionRef (step st ev) = recognitionRef st.
Proof. destruct ev; js_cases; congruence. Qed.

Lemma reachable_recognitionRef (st : App) :
  reachable st ->
  exists speech, recognitionRef st = recognitionRef (mount speech).
Proof.
  revert st. apply reachable_ind.
  - intros speech; now exists speech.
  - intros s ev (speech & H). exists speech.
    now rewrite step_recognitionRef.
Qed.

Lemma remove_single (id : TimerId) : remove Pos.eq_dec id [id] = [].
Proof. simpl. now destruct (Pos.eq_dec id id). Qed.

(** An event keeps the recording bookkeeping, unless it settles a capture
    request or stops the recorder while a recording is on. *)
Lemma step_tracked (st : App) (ev : Event) :
  tracked st -> orderly st ev = true -> tracked (step st ev).
Proof.
  unfold tracked, orderly. intros (H1 & H2 & H3) Ho.
  assert (Hc : isRecording st = false
               \/ (is_CaptureSettles ev = false /\ is_RecorderStopped ev = false)).
  { destruct (isRecording st); [right|now left].
    destruct (is_CaptureSettles ev), (is_RecorderStopped ev);
      try discriminate; now split. }
  clear Ho. revert H1 H2 H3 Hc.
  destruct ev; js_cases; intros H1 H2 H3 Hc;
    try (destruct Hc as [Hc|[Hc1 Hc2]]; [|discriminate]);
    repeat split; intros; use_hyps; try congruence; auto;
    rewrite H3; first [apply remove_single | reflexivity].
Qed.

Lemma mount_tracked (speech : bool) : tracked (mount speech).
Proof. unfold tracked; cbn. repeat split; congruence. Qed.

Lemma orderly_tracked (evs : list Event) :
  forall st, tracked st -> orderly_run evs st = true -> tracked (run evs st).
Proof.
  induction evs as [|ev evs IH]; intros st Ht Ho; [exact Ht|].
  cbn [orderly_run] in Ho. apply andb_true_iff in Ho as [Ho1 Ho2].
  change (run (ev :: evs) st) with (run evs (step st ev)).
  apply IH; [now apply step_tracked | exact Ho2].
Qed.

(** X3.  The component mounts with its recording bookkeeping in order, and
    keeps it along every sequence of events in which no capture request
    settles and the platform does not stop the recorder while a recording
    is on: the recorder held by [mediaRecorderRef] is recording whenever
    [isRecording] is set, [intervalRef] is empty whenever it is not, and the
    only live interval is the one [intervalRef] holds. *)
Theorem recording_bookkeeping (speech : bool) (evs : list Event) :
  orderly_run evs (mount speech) = true ->
  (isRecording (run evs (mount speech)) = true ->
   mediaRecorderRef (run evs (mount speech)) = Some DOM.recording)
  /\ (isRecording (run evs (mount speech)) = false ->
      intervalRef (run evs (mount speech)) = None)
  /\ intervals (run evs (mount speech))
     = match intervalRef (run evs (mount speech)) with
       | Some id => [id]
       | None => []
       end.
Proof.
  intros Ho. apply (orderly_tracked evs (mount speech)); [|exact Ho].
  apply mount_tracked.
Qed.

Lemma recording_bookkeeping_witness :
  (isRecording recorded_after_prompt = true ->
   mediaRecorderRef recorded_after_prompt = Some DOM.recording)
  /\ (isRecording recorded_after_prompt = false ->
      intervalRef recorded_after_prompt = None)
  /\ intervals recorded_after_prompt
     = match intervalRef recorded_after_prompt with
       | Some id => [id]
       | None => []
       end.
Proof.
  apply (recording_bookkeeping true
           [ClickRecordPending;
            RecognitionEnd;
            CaptureSettles granted;
            RecognitionResult
              {| DOM.resultIndex := 0;
                 DOM.results := [final "chest pain"; interim "two days"] |};
            IntervalFires 1%positive;
            ClickRecordPending;
            RecorderStopped;
            RecognitionEnd]).
  reflexivity.
Defined.

(** ** Stopping a recording *)

(** While nothing is recording, no interval is live and the recorder held
    is not recording, an event that starts no recording leaves it so, and
    leaves the elapsed seconds as they are. *)
Lemma stopped_step (st : App) (ev : Event) :
  may_start_recording ev = false ->
  isRecording st = false -> intervals st = [] ->
  mediaRecorderRef st <> Some DOM.recording ->
  isRecording (step st ev) = false
  /\ intervals (step st ev) = []
  /\ mediaRecorderRef (step st ev) <> Some DOM.recording
  /\ recordingTime (step st ev) = recordingTime st.
Proof.
  destruct ev; try discriminate; intros _; js_cases; intros Hr Hi Hm;
    repeat split; try congruence; auto.
  all: rewrite Hi in *; cbn in *; try discriminate.
Qed.

Lemma stopped_run (evs : list Event) :
  forall st,
    Forall (fun ev => may_start_recording ev = false) evs ->
    isRecording st = false -> intervals st = [] ->
    mediaRecorderRef st <> Some DOM.recording ->
    isRecording (run evs st) = false
    /\ intervals (run evs st) = []
    /\ mediaRecorderRef (run evs st) <> Some DOM.recording
    /\ recordingTime (run evs st) = recordingTime st.
Proof.
  induction evs as [|ev evs IH]; intros st Hevs Hr Hi Hm; [now repeat split|].
  inversion Hevs as [|? ? Hev Hevs']; subst.
  destruct (stopped_step st ev Hev Hr Hi Hm) as (Hr' & Hi' & Hm' & Ht').
  destruct (IH (step st ev) Hevs' Hr' Hi' Hm') as (? & ? & ? & ?).
  change (run (ev :: evs) st) with (run evs (step st ev)).
  repeat split; congruence.
Qed.

(** C5.  [stopRecording] does not always stop the session.  After two
    clicks on the record button before the first capture request settles,
    both requests granted, two intervals are live and [intervalRef] holds
    the second: [stopRecording] clears [isRecording] and the second
    interval, the first stays live, and its next firing advances the elapsed
    seconds of the stopped session.  And once the platform has stopped the
    recorder of a running session, [stopRecording] changes nothing:
    [isRecording] stays set, the interval stays live and the elapsed seconds
    keep advancing. *)
Theorem stopRecording_fails_to_stop :
  (isRecording started_twice = true
   /\ intervals started_twice = [1%positive; 2%positive]
   /\ isRecording (exec stopRecording started_twice) = false
   /\ intervals (exec stopRecording started_twice) = [1%positive]
   /\ recordingTime (exec stopRecording started_twice) = 0
   /\ recordingTime
        (step (exec stopRecording started_twice) (IntervalFires 1%positive)) = 1)
  /\ (isRecording recorder_ended = true
      /\ mediaRecorderRef recorder_ended = Some DOM.inactive
      /\ exec stopRecording recorder_ended = recorder_ended
      /\ step recorder_ended ClickRecordPending = recorder_ended
      /\ intervals recorder_ended = [1%positive]
      /\ recordingTime recorder_ended = 1
      /\ recordingTime
           (step (exec stopRecording recorder_ended) (IntervalFires 1%positive))
         = 2).
Proof. vm_compute. repeat split; reflexivity. Qed.

(** X27.  In a state whose recording bookkeeping is in order, while
    recording, [stopRecording] clears [isRecording] and leaves no interval
    live; from then on, until a recording is started again, whatever events
    are handled, the session stays stopped and the elapsed seconds stay
    where they were; and a second [stopRecording], at once or after those
    events, changes nothing. *)
Theorem stopRecording_stops_tracked_session (st : App) (evs : list Event) :
  tracked st ->
  isRecording st = true ->
  Forall (fun ev => may_start_recording ev = false) evs ->
  isRecording (exec stopRecording st) = false
  /\ intervals (exec stopRecording st) = []
  /\ isRecording (run evs (exec stopRecording st)) = false
  /\ recordingTime (run evs (exec stopRecording st)) = recordingTime st
  /\ exec stopRecording (exec stopRecording st) = exec stopRecording st
  /\ exec stopRecording (run evs (exec stopRecording st))
     = run evs (exec stopRecording st).
Proof.
  intros (H1 & _ & H3) Hrec Hevs.
  specialize (H1 Hrec).
  assert (Hi : intervals (exec stopRecording st) = []).
  { rewrite stopRecording_recording by exact H1. cbn.
    destruct (intervalRef st); rewrite H3; [apply remove_single | reflexivity]. }
  assert (Hr : isRecording (exec stopRecording st) = false)
    by now rewrite stopRecording_recording.
  assert (Hm : mediaRecorderRef (exec stopRecording st) <> Some DOM.recording)
    by now rewrite stopRecording_recording.
  assert (Ht : recordingTime (exec stopRecording st) = recordingTime st)
    by now rewrite stopRecording_recording.
  destruct (stopped_run evs (exec stopRecording st) Hevs Hr Hi Hm)
    as (Hr' & _ & Hm' & Ht').
  repeat split; try assumption.
  - congruence.
  - now apply stopRecording_not_recording.
  - now apply stopRecording_not_recording.
Qed.

Lemma stopRecording_stops_tracked_session_witness :
  isRecording (exec stopRecording still_recording) = false
  /\ intervals (exec stopRecording still_recording) = []
  /\ isRecording
       (run [IntervalFires 1%positive; RecognitionEnd; RecorderStopped;
             ClickRecordPending; IntervalFires 1%positive]
            (exec stopRecording still_recording)) = false
  /\ recordingTime
       (run [IntervalFires 1%positive; RecognitionEnd; RecorderStopped;
             ClickRecordPending; IntervalFires 1%positive]
            (exec stopRecording still_recording))
     = recordingTime still_recording
  /\ exec stopRecording (exec stopRecording still_recording)
     = exec stopRecording still_recording
  /\ exec stopRecording
       (run [IntervalFires 1%positive; RecognitionEnd; RecorderStopped;
             ClickRecordPending; IntervalFires 1%positive]
            (exec stopRecording still_recording))
     = run [IntervalFires 1%positive; RecognitionEnd; RecorderStopped;
            ClickRecordPending; IntervalFires 1%positive]
           (exec stopRecording still_recording).
Proof.
  apply (stopRecording_stops_tracked_session still_recording
           [IntervalFires 1%positive; RecognitionEnd; RecorderStopped;
            ClickRecordPending; IntervalFires 1%positive]).
  - unfold tracked. repeat split; [discriminate].
  - reflexivity.
  - repeat constructor.
Defined.

(** C8 (as amended).  When the capture request is granted and no later
    platform call throws, [startRecording] empties transcript and note,
    zeroes the elapsed seconds, starts the recorder, sets [isRecording],
    and starts a one-second interval whose firing adds one second.  It
    starts the recognizer, which is in continuous mode with interim
    results, when the browser provides one; otherwise no recognizer is
    started and the rest happens all the same. *)
Theorem startRecording_granted_starts_session (st : App) :
  reachable st ->
  transcript (exec (startRecording granted) st) = ""
  /\ notes (exec (startRecording granted) st) = ""
  /\ recordingTime (exec (startRecording granted) st) = 0
  /\ isRecording (exec (startRecording granted) st) = true
  /\ mediaRecorderRef (exec (startRecording granted) st) = Some DOM.recording
  /\ intervalRef (exec (startRecording granted) st) = Some (nextTimer st)
  /\ In (nextTimer st) (intervals (exec (startRecording granted) st))
  /\ recordingTime
       (step (exec (startRecording granted) st) (IntervalFires (nextTimer st)))
     = 1
  /\ isTranscribing (exec (startRecording granted) st)
     = match recognitionRef st with
       | Some _ => true
       | None => isTranscribing st
       end
  /\ effects (exec (startRecording granted) st)
     = (effects st
        ++ [GetUserMedia true true 44100%N;
            NewMediaRecorder "audio/webm;codecs=opus";
            RecorderStart 1000%N]
        ++ match recognitionRef st with
           | Some _ =>
               [RecognitionStart {| DOM.continuous := true;
                                    DOM.interimResults := true;
                                    DOM.lang := "en-US" |}]
           | None => []
           end
        ++ [SetInterval (nextTimer st) 1000%N])%list.
Proof.
  intros Hreach.
  destruct (reachable_recognitionRef st Hreach) as (speech & Hs).
  rewrite startRecording_granted.
  repeat split.
  - cbn. apply in_or_app. right. now left.
  - unfold step, handle, tick. js_unfold. cbn.
    rewrite existsb_app. cbn. rewrite Pos.eqb_refl.
    now rewrite orb_true_r.
  - cbn. rewrite Hs. now destruct speech.
Qed.

Lemma startRecording_granted_starts_session_witness :
  transcript (exec (startRecording granted) recorded) = ""
  /\ notes (exec (startRecording granted) recorded) = ""
  /\ recordingTime (exec (startRecording granted) recorded) = 0
  /\ isRecording (exec (startRecording granted) recorded) = true
  /\ mediaRecorderRef (exec (startRecording granted) recorded)
     = Some DOM.recording
  /\ intervalRef (exec (startRecording granted) recorded)
     = Some (nextTimer recorded)
  /\ In (nextTimer recorded)
        (intervals (exec (startRecording granted) recorded))
  /\ recordingTime
       (step (exec (startRecording granted) recorded)
             (IntervalFires (nextTimer recorded)))
     = 1
  /\ isTranscribing (exec (startRecording granted) recorded)
     = match recognitionRef recorded with
       | Some _ => true
       | None => isTranscribing recorded
       end
  /\ effects (exec (startRecording granted) recorded)
     = (effects recorded
        ++ [GetUserMedia true true 44100%N;
            NewMediaRecorder "audio/webm;codecs=opus";
            RecorderStart 1000%N]
        ++ match recognitionRef recorded with
           | Some _ =>
               [RecognitionStart {| DOM.continuous := true;
                                    DOM.interimResults := true;
                                    DOM.lang := "en-US" |}]
           | None => []
           end
        ++ [SetInterval (nextTimer recorded) 1000%N])%list.
Proof.
  apply (startRecording_granted_starts_session recorded).
  exists true.
  exists [ClickRecord granted;
          RecognitionResult
            {| DOM.resultIndex := 0;
               DOM.results := [final "chest pain"; interim "two days"] |};
          IntervalFires 1%positive;
          ClickRecord granted;
          RecorderStopped;
          RecognitionEnd].
  reflexivity.
Defined.

(** C8 as stated fails on a browser without the Web Speech API: the
    capture is granted and the recording starts, but no recognizer is
    started and the transcription flag stays clear. *)
Lemma startRecording_without_recognizer :
  isRecording (exec (startRecording granted) (mount false)) = true
  /\ existsb starts_recognizer
       (effects (exec (startRecording granted) (mount false))) = false
  /\ isTranscribing (exec (startRecording granted) (mount false)) = false
  /\ effects (exec (startRecording granted) (mount false))
     = [GetUserMedia true true 44100%N;
        NewMediaRecorder "audio/webm;codecs=opus";
        RecorderStart 1000%N;
        SetInterval 1%positive 1000%N].
Proof. repeat split; vm_compute; reflexivity. Qed.

(** ** Copying to the clipboard *)

Lemma existsb_filter_other (id id' : TimerId) (l : list (TimerId * N)) :
  Pos.eqb id id' = false ->
  existsb (fun t => Pos.eqb id (fst t))
          (filter (fun t => negb (Pos.eqb id' (fst t))) l)
  = existsb (fun t => Pos.eqb id (fst t)) l.
Proof.
  intros H. induction l as [|[i ms] l IH]; cbn; [reflexivity|].
  destruct (Pos.eqb_spec id' i) as [->|Hne]; cbn.
  - now rewrite H.
  - now rewrite IH.
Qed.

(** Nothing cancels a timeout: it stays pending until it fires. *)
Lemma pending_step (id : TimerId) (st : App) (ev : Event) :
  fires id ev = false -> pending id st = true -> pending id (step st ev) = true.
Proof.
  unfold pending.
  destruct ev; cbn [fires]; intros Hf; js_cases; intros Hp;
    rewrite ?existsb_app; try assumption.
  all: try (apply orb_true_iff; left; exact Hp).
  all: try (rewrite existsb_filter_other by exact Hf; exact Hp).
Qed.

Lemma pending_run (id : TimerId) (evs : list Event) :
  forall st,
    Forall (fun ev => fires id ev = false) evs ->
    pending id st = true -> pending id (run evs st) = true.
Proof.
  induction evs as [|ev evs IH]; intros st Hevs Hp; [exact Hp|].
  inversion Hevs as [|? ? Hev Hevs']; subst.
  change (run (ev :: evs) st) with (run evs (step st ev)).
  apply IH; [exact Hevs'|]. now apply pending_step.
Qed.

Lemma ontimeout_pending (id : TimerId) (st : App) :
  pending id st = true -> status (step st (TimeoutFires id)) = "Ready".
Proof.
  unfold pending, step, handle, ontimeout. js_unfold.
  now intros ->.
Qed.

(** C9 (as amended).  When the clipboard write succeeds, the status line
    becomes the copied-confirmation message and a timeout of 2000 ms is
    set; whatever events are handled before that timeout fires, its firing
    sets the status line to "Ready", whether or not the status line was
    changed in between. *)
Theorem copy_status_reverts_unconditionally
    (text type : string) (st : App) (evs : list Event) :
  Forall (fun ev => fires (nextTimer st) ev = false) evs ->
  status (exec (copyToClipboard text type None) st)
  = type ++ " copied to clipboard!"
  /\ In (nextTimer st, 2000%N)
        (timeouts (exec (copyToClipboard text type None) st))
  /\ status (step (run evs (exec (copyToClipboard text type None) st))
                  (TimeoutFires (nextTimer st)))
     = "Ready".
Proof.
  intros Hevs. repeat split.
  - cbn. apply in_or_app. right. now left.
  - apply ontimeout_pending, pending_run; [exact Hevs|].
    unfold pending. cbn. rewrite existsb_app. cbn.
    now rewrite Pos.eqb_refl, orb_true_r.
Qed.

Lemma copy_status_reverts_unconditionally_witness :
  status (exec (copyToClipboard "chest pain " "Transcript" None) recorded)
  = "Transcript copied to clipboard!"
  /\ In (nextTimer recorded, 2000%N)
        (timeouts (exec (copyToClipboard "chest pain " "Transcript" None) recorded))
  /\ status
       (step (run [RecognitionError "network"; IntervalFires 1%positive]
                  (exec (copyToClipboard "chest pain " "Transcript" None) recorded))
             (TimeoutFires (nextTimer recorded)))
     = "Ready".
Proof.
  apply (copy_status_reverts_unconditionally
           "chest pain " "Transcript" recorded
           [RecognitionError "network"; IntervalFires 1%positive]).
  repeat constructor.
Defined.

(** C9 as stated fails: a status set after the copy is overwritten when
    the timeout fires.  Here the transcript is copied, a generation is
    started, and two seconds after the copy the status line says "Ready"
    while the generation is still in flight. *)
Lemma ready_overwrites_later_status :
  status (run [ClickCopyTranscript None] recorded)
  = "Transcript copied to clipboard!"
  /\ status (run [ClickCopyTranscript None; ClickGenerate with_key] recorded)
     = "Generating clinical notes..."
  /\ status (run [ClickCopyTranscript None; ClickGenerate with_key;
                  TimeoutFires 2%positive] recorded)
     = "Ready"
  /\ isLoading (run [ClickCopyTranscript None; ClickGenerate with_key;
                     TimeoutFires 2%positive] recorded)
     = true.
Proof. repeat split; vm_compute; reflexivity. Qed.

(** ** A generation in flight, event by event *)

Lemma fragments_app (a b : list Groq.ChatCompletionChunk) :
  fragments (a ++ b) = fragments a ++ fragments b.
Proof. unfold fragments. now rewrite map_app, join_app. Qed.

Lemma delivered_cons (ev : Event) (evs : list Event) :
  delivered (ev :: evs) = (delivered [ev] ++ delivered evs)%list.
Proof. unfold delivered. cbn. now rewrite app_nil_r. Qed.

(** While a generation is in flight, an event other than its settling and
    the settling of a capture request leaves it in flight, and changes the
    note only by appending the chunk it delivers, if it delivers one: both
    buttons that could reset the note are disabled. *)
Lemma inflight_step (st : App) (ev : Event) :
  isLoading st = true ->
  keeps_generation ev = true ->
  isLoading (step st ev) = true
  /\ notes (step st ev) = notes st ++ fragments (delivered [ev]).
Proof.
  intros Hl Hev.
  destruct ev; try discriminate.
  4: { unfold step, handle. js_unfold. rewrite Hl.
       rewrite onchunk_spec. cbn. unfold fragments. cbn.
       now rewrite append_nil_r. }
  all: unfold fragments, delivered; cbn [flat_map map JS.join fold_right app];
    rewrite append_nil_r;
    js_handlers; js_unfold; cbn; rewrite ?Hl; cbn;
    repeat (js_case; cbn in * ); split; congruence.
Qed.

Lemma inflight_run (evs : list Event) :
  forall st,
    isLoading st = true ->
    Forall (fun ev => keeps_generation ev = true) evs ->
    isLoading (run evs st) = true
    /\ notes (run evs st) = notes st ++ fragments (delivered evs).
Proof.
  induction evs as [|ev evs IH]; intros st Hl Hevs.
  - split; [exact Hl | now rewrite append_nil_r].
  - inversion Hevs as [|? ? Hev Hevs']; subst.
    destruct (inflight_step st ev Hl Hev) as (Hl' & Hn').
    destruct (IH (step st ev) Hl' Hevs') as (Hl'' & Hn'').
    change (run (ev :: evs) st) with (run evs (step st ev)).
    split; [exact Hl''|].
    rewrite Hn'', Hn', append_assoc.
    now rewrite (delivered_cons ev evs), fragments_app.
Qed.

Lemma generateButton_enabled (env : Credentials) (st : App) :
  generateButton_disabled st = false ->
  step st (ClickGenerate env) = exec (generation_start env) st
  /\ JS.blank (transcript st) = false.
Proof.
  intros H. split.
  - unfold step, handle, generateButton. js_unfold. now rewrite H.
  - unfold generateButton_disabled in H. rewrite not_trim_blank in H.
    destruct (JS.blank (transcript st)); [|reflexivity].
    now rewrite orb_true_r in H.
Qed.

Lemma settle_step (st : App) (outcome : option Error) :
  isLoading st = true ->
  step st (StreamSettles outcome) = exec (generation_settle outcome) st.
Proof. intros H. unfold step, handle. js_unfold. now rewrite H. Qed.

(** X1.  From the click that starts a generation to the event that settles
    it, whatever clicks and callbacks are handled in between, provided no
    capture request settles there, the note at the end is the concatenation
    of the chunks delivered, in delivery order; the loading flag is then
    clear and the status line tells how the generation ended. *)
Theorem generation_in_flight_undisturbed
    (env : Credentials) (st : App) (evs : list Event) (outcome : option Error) :
  generateButton_disabled st = false ->
  credential_configured env = true ->
  Forall (fun ev => keeps_generation ev = true) evs ->
  notes (run (ClickGenerate env :: evs ++ [StreamSettles outcome]) st)
  = fragments (delivered evs)
  /\ isLoading (run (ClickGenerate env :: evs ++ [StreamSettles outcome]) st)
     = false
  /\ status (run (ClickGenerate env :: evs ++ [StreamSettles outcome]) st)
     = match outcome with
       | None => "Clinical notes generated successfully!"
       | Some _ =>
           "Error generating notes. Please check your API key and try again."
       end.
Proof.
  intros Hen Hc Hevs.
  destruct (generateButton_enabled env st Hen) as (Hclick & Hb).
  change (run (ClickGenerate env :: evs ++ [StreamSettles outcome]) st)
    with (run (evs ++ [StreamSettles outcome]) (step st (ClickGenerate env))).
  rewrite run_app, Hclick, generation_start_accepted by assumption.
  match goal with |- context [run evs ?s] =>
    destruct (inflight_run evs s eq_refl Hevs) as (Hl & Hn);
    change (run [StreamSettles outcome] (run evs s))
      with (step (run evs s) (StreamSettles outcome));
    rewrite (settle_step (run evs s) outcome Hl);
    remember (run evs s) as s' eqn:Hs'
  end.
  unfold generation_settle. js_unfold.
  destruct outcome; cbn; rewrite Hn; repeat split.
Qed.

Lemma generation_in_flight_undisturbed_witness :
  notes (run (ClickGenerate with_key
                :: [StreamChunk (fragment "Subjective: ");
                    ClickRecord granted;
                    ClickCopyTranscript None;
                    StreamChunk (fragment "patient reports chest pain.");
                    TimeoutFires 2%positive]
                ++ [StreamSettles None]) recorded)
  = "Subjective: patient reports chest pain."
  /\ isLoading (run (ClickGenerate with_key
                       :: [StreamChunk (fragment "Subjective: ");
                           ClickRecord granted;
                           ClickCopyTranscript None;
                           StreamChunk (fragment "patient reports chest pain.");
                           TimeoutFires 2%positive]
                       ++ [StreamSettles None]) recorded)
     = false
  /\ status (run (ClickGenerate with_key
                    :: [StreamChunk (fragment "Subjective: ");
                        ClickRecord granted;
                        ClickCopyTranscript None;
                        StreamChunk (fragment "patient reports chest pain.");
                        TimeoutFires 2%positive]
                    ++ [StreamSettles None]) recorded)
     = "Clinical notes generated successfully!".
Proof.
  apply (generation_in_flight_undisturbed with_key recorded
           [StreamChunk (fragment "Subjective: ");
            ClickRecord granted;
            ClickCopyTranscript None;
            StreamChunk (fragment "patient reports chest pain.");
            TimeoutFires 2%positive]
           None).
  - reflexivity.
  - reflexivity.
  - repeat constructor.
Defined.

Lemma stream_as_events (chunks : list Groq.ChatCompletionChunk) :
  forall st,
    isLoading st = true ->
    run (map StreamChunk chunks) st = stream chunks st.
Proof.
  induction chunks as [|c chunks IH]; intros st Hl; [reflexivity|].
  cbn [map]. change (run (StreamChunk c :: map StreamChunk chunks) st)
    with (run (map StreamChunk chunks) (step st (StreamChunk c))).
  assert (Hs : step st (StreamChunk c) = exec (onchunk c) st).
  { unfold step, handle. js_unfold. now rewrite Hl. }
  rewrite Hs, IH; [reflexivity|].
  unfold exec. now rewrite onchunk_spec.
Qed.

(** X2.  [generateClinicalNotes], run from the click to the end with nothing in
    between, is the click, the chunks of the stream as events, and the
    settling event. *)
Theorem generateClinicalNotes_as_events
    (env : Credentials) (r : Groq.Response) (st : App) :
  generateButton_disabled st = false ->
  credential_configured env = true ->
  Groq.create_rejects r = None ->
  exec (generateClinicalNotes env r) st
  = run (ClickGenerate env
           :: map StreamChunk (Groq.chunks r)
           ++ [StreamSettles (Groq.stream_end r)]) st.
Proof.
  intros Hen Hc Ho.
  destruct (generateButton_enabled env st Hen) as (Hclick & Hb).
  rewrite generateClinicalNotes_segments, Ho by assumption.
  change (run (ClickGenerate env :: ?l) st)
    with (run l (step st (ClickGenerate env))).
  rewrite run_app, Hclick.
  assert (Hl : isLoading (exec (generation_start env) st) = true)
    by now rewrite generation_start_accepted.
  rewrite stream_as_events by exact Hl.
  change (run [StreamSettles (Groq.stream_end r)] ?s)
    with (step s (StreamSettles (Groq.stream_end r))).
  rewrite settle_step; [reflexivity|].
  now rewrite stream_spec.
Qed.

Lemma generateClinicalNotes_as_events_witness :
  exec (generateClinicalNotes with_key breaks_off) recorded
  = run (ClickGenerate with_key
           :: map StreamChunk (Groq.chunks breaks_off)
           ++ [StreamSettles (Groq.stream_end breaks_off)]) recorded.
Proof.
  apply (generateClinicalNotes_as_events with_key breaks_off recorded);
    reflexivity.
Defined.

(** ** A capture request pending, event by event *)

(** [startRecording] is its part before the suspension at the capture
    request followed by its part after. *)
Lemma startRecording_segments (p : Platform) (st : App) :
  exec (startRecording p) st
  = exec (startRecording_resume p) (exec startRecording_request st).
Proof.
  unfold startRecording, startRecording_resume, startRecording_request.
  js_unfold.
  destruct p as [[e1|] [e2|] [e3|] [e4|]]; cbn;
    try reflexivity; destruct (recognitionRef st); reflexivity.
Qed.

Lemma recordButton_accepted (p : Platform) (st : App) :
  isLoading st = false -> isRecording st = false ->
  step st (ClickRecord p) = exec (startRecording p) st
  /\ step st ClickRecordPending = exec startRecording_request st.
Proof.
  intros Hl Hr. split.
  - unfold step, handle, recordButton. js_unfold. now rewrite Hl, Hr.
  - unfold step, handle, recordButton_pending. js_unfold. now rewrite Hl, Hr.
Qed.

(** X28.  While nothing is loading or recording, [startRecording] run from
    the click to its end with nothing in between, which is what the event
    [ClickRecord] does, is the click that leaves the capture request pending
    followed by the event that settles the request. *)
Theorem startRecording_as_events (p : Platform) (st : App) :
  isLoading st = false -> isRecording st = false ->
  exec (startRecording p) st = run [ClickRecordPending; CaptureSettles p] st
  /\ step st (ClickRecord p) = run [ClickRecordPending; CaptureSettles p] st.
Proof.
  intros Hl Hr.
  destruct (recordButton_accepted p st Hl Hr) as (H1 & H2).
  change (run [ClickRecordPending; CaptureSettles p] st)
    with (step (step st ClickRecordPending) (CaptureSettles p)).
  rewrite H1, H2, startRecording_segments. now split.
Qed.

Lemma startRecording_as_events_witness :
  exec (startRecording granted) recorded
  = run [ClickRecordPending; CaptureSettles granted] recorded
  /\ step recorded (ClickRecord granted)
     = run [ClickRecordPending; CaptureSettles granted] recorded.
Proof.
  apply (startRecording_as_events granted recorded); reflexivity.
Defined.

Lemma run_cons (ev : Event) (evs : list Event) (st : App) :
  run (ev :: evs) st = run evs (step st ev).
Proof. reflexivity. Qed.

(** A capture request that settles granted empties the note and leaves the
    loading flag as it is. *)
Lemma capture_settles_in_flight (st : App) :
  notes (step st (CaptureSettles granted)) = ""
  /\ isLoading (step st (CaptureSettles granted)) = isLoading st.
Proof.
  unfold step, handle, startRecording_resume. js_unfold. cbn.
  destruct (recognitionRef st); cbn; now split.
Qed.

(** X29.  The record button is disabled while a generation is in flight,
    but a capture request made before the generation started can settle
    during it.  When it does, granted, the part of [startRecording] after
    the suspension empties the note in mid-stream: at the end the note
    holds the chunks delivered after the settling only, those delivered
    before are lost, and the status line reports a generation that
    succeeded. *)
Theorem capture_settling_empties_note_in_flight
    (env : Credentials) (st : App) (before after : list Event)
    (outcome : option Error) :
  generateButton_disabled st = false ->
  credential_configured env = true ->
  Forall (fun ev => keeps_generation ev = true) before ->
  Forall (fun ev => keeps_generation ev = true) after ->
  notes (run (ClickGenerate env
                :: before ++ CaptureSettles granted
                :: after ++ [StreamSettles outcome]) st)
  = fragments (delivered after)
  /\ isLoading (run (ClickGenerate env
                       :: before ++ CaptureSettles granted
                       :: after ++ [StreamSettles outcome]) st)
     = false
  /\ status (run (ClickGenerate env
                    :: before ++ CaptureSettles granted
                    :: after ++ [StreamSettles outcome]) st)
     = match outcome with
       | None => "Clinical notes generated successfully!"
       | Some _ =>
           "Error generating notes. Please check your API key and try again."
       end.
Proof.
  intros Hen Hc Hb Ha.
  destruct (generateButton_enabled env st Hen) as (Hclick & Hbl).
  change (run (ClickGenerate env
                 :: before ++ CaptureSettles granted
                 :: after ++ [StreamSettles outcome]) st)
    with (run (before ++ CaptureSettles granted
                 :: after ++ [StreamSettles outcome])
              (step st (ClickGenerate env))).
  rewrite run_app, Hclick, generation_start_accepted by assumption.
  match goal with |- context [run before ?s] =>
    destruct (inflight_run before s eq_refl Hb) as (Hl1 & _);
    remember (run before s) as s1 eqn:Hs1
  end.
  rewrite (run_cons (CaptureSettles granted)).
  destruct (capture_settles_in_flight s1) as (Hn2 & Hl2).
  rewrite Hl1 in Hl2.
  remember (step s1 (CaptureSettles granted)) as s2 eqn:Hs2.
  rewrite run_app.
  destruct (inflight_run after s2 Hl2 Ha) as (Hl3 & Hn3).
  rewrite Hn2 in Hn3. cbn [append] in Hn3.
  rewrite (run_cons (StreamSettles outcome) [] (run after s2)).
  cbn [run fold_left].
  rewrite (settle_step (run after s2) outcome Hl3).
  remember (run after s2) as s3 eqn:Hs3.
  unfold generation_settle. js_unfold.
  destruct outcome; cbn; rewrite Hn3; repeat split.
Qed.

Lemma capture_settling_empties_note_in_flight_witness :
  notes (run (ClickGenerate with_key
                :: [StreamChunk (fragment "Subjective: ")]
                ++ CaptureSettles granted
                :: [StreamChunk (fragment "patient reports chest pain.")]
                ++ [StreamSettles None])
             (step recorded ClickRecordPending))
  = "patient reports chest pain."
  /\ isLoading (run (ClickGenerate with_key
                       :: [StreamChunk (fragment "Subjective: ")]
                       ++ CaptureSettles granted
                       :: [StreamChunk (fragment "patient reports chest pain.")]
                       ++ [StreamSettles None])
                    (step recorded ClickRecordPending))
     = false
  /\ status (run (ClickGenerate with_key
                    :: [StreamChunk (fragment "Subjective: ")]
                    ++ CaptureSettles granted
                    :: [StreamChunk (fragment "patient reports chest pain.")]
                    ++ [StreamSettles None])
                 (step recorded ClickRecordPending))
     = "Clinical notes generated successfully!".
Proof.
  apply (capture_settling_empties_note_in_flight
           with_key (step recorded ClickRecordPending)
           [StreamChunk (fragment "Subjective: ")]
           [StreamChunk (fragment "patient reports chest pain.")]
           None).
  - reflexivity.
  - reflexivity.
  - repeat constructor.
  - repeat constructor.
Defined.

(** ** Where the properties above stop *)

(** When the recognizer's [start] throws, the [catch] runs after the
    recording has started: [isRecording] is set and the recorder records,
    but no interval is started and the status line reports a microphone
    error.  This is the case C8 (as amended) leaves out. *)
Lemma startRecording_recognizer_throws :
  isRecording (exec (startRecording recognizer_busy) recorded) = true
  /\ mediaRecorderRef (exec (startRecording recognizer_busy) recorded)
     = Some DOM.recording
  /\ intervals (exec (startRecording recognizer_busy) recorded) = []
  /\ status (exec (startRecording recognizer_busy) recorded)
     = "Error: Could not access microphone. Please check permissions.".
Proof. repeat split; vm_compute; reflexivity. Qed.

(** Two runs of [startRecording] in a row from the mount state of a
    browser without recognizer, as a computation: two intervals are live,
    [stopRecording] clears the second only, and the first still advances
    the elapsed seconds (the general statement is X5 below). *)
Lemma startRecording_twice_keeps_first_interval :
  intervals (exec (startRecording granted)
               (exec (startRecording granted) (mount false)))
  = [1%positive; 2%positive]
  /\ intervalRef (exec (startRecording granted)
                    (exec (startRecording granted) (mount false)))
     = Some 2%positive
  /\ isRecording
       (exec stopRecording
          (exec (startRecording granted)
             (exec (startRecording granted) (mount false))))
     = false
  /\ intervals
       (exec stopRecording
          (exec (startRecording granted)
             (exec (startRecording granted) (mount false))))
     = [1%positive]
  /\ recordingTime
       (exec stopRecording
          (exec (startRecording granted)
             (exec (startRecording granted) (mount false))))
     = 0
  /\ recordingTime
       (step (exec stopRecording
                (exec (startRecording granted)
                   (exec (startRecording granted) (mount false))))
             (IntervalFires 1%positive))
     = 1.
Proof. repeat split; vm_compute; reflexivity. Qed.

(** ** Beyond the claims: display, invariants, edge behaviour *)

Lemma toString_from_acc (steps : nat) :
  forall n acc,
    JS.toString_from steps n acc = JS.toString_from steps n "" ++ acc.
Proof.
  induction steps as [|steps IH]; intros n acc; cbn [JS.toString_from]; [reflexivity|].
  destruct (Nat.ltb n 10); [reflexivity|].
  rewrite IH, (IH _ (String _ "")), append_assoc. reflexivity.
Qed.

Lemma toString_from_steps (s1 : nat) :
  forall s2 n acc,
    n < s1 -> n < s2 ->
    JS.toString_from s1 n acc = JS.toString_from s2 n acc.
Proof.
  induction s1 as [|s1 IH]; intros s2 n acc H1 H2; [lia|].
  destruct s2 as [|s2]; [lia|]. cbn [JS.toString_from].
  destruct (Nat.ltb_spec n 10) as [Hlt|Hge]; [reflexivity|].
  apply IH.
  - assert (n / 10 < n) by (apply Nat.div_lt; lia). lia.
  - assert (n / 10 < n) by (apply Nat.div_lt; lia). lia.
Qed.

Lemma toString_small (n : nat) :
  n < 10 -> JS.toString n = String (JS.digit n) "".
Proof.
  intros H. unfold JS.toString. cbn [JS.toString_from].
  destruct (Nat.ltb_spec n 10); [|lia].
  now rewrite Nat.mod_small.
Qed.

Lemma toString_step (n : nat) :
  10 <= n ->
  JS.toString n = JS.toString (n / 10) ++ String (JS.digit (n mod 10)) "".
Proof.
  intros H. unfold JS.toString at 1. cbn [JS.toString_from].
  destruct (Nat.ltb_spec n 10); [lia|].
  rewrite toString_from_acc. f_equal.
  unfold JS.toString. apply toString_from_steps.
  - assert (n / 10 < n) by (apply Nat.div_lt; lia). lia.
  - lia.
Qed.

Lemma toString_ind (P : nat -> Prop) :
  (forall n, n < 10 -> P n) ->
  (forall n, 10 <= n -> P (n / 10) -> P n) ->
  forall n, P n.
Proof.
  intros Hs Hb n. induction n as [n IH] using lt_wf_ind.
  destruct (Nat.lt_ge_cases n 10) as [H|H]; [now apply Hs|].
  apply Hb; [exact H|]. apply IH. apply Nat.div_lt; lia.
Qed.

Lemma length_append (a b : string) :
  String.length (a ++ b) = String.length a + String.length b.
Proof. induction a as [|c a IH]; simpl; [reflexivity | now rewrite IH]. Qed.

Lemma length_toString_pos (n : nat) : 1 <= String.length (JS.toString n).
Proof.
  destruct (Nat.lt_ge_cases n 10) as [H|H].
  - now rewrite toString_small.
  - rewrite toString_step, length_append by exact H. simpl. lia.
Qed.

Lemma length_toString_1 (n : nat) :
  n < 10 -> String.length (JS.toString n) = 1.
Proof. intros H. now rewrite toString_small. Qed.

Lemma length_toString_2 (n : nat) :
  10 <= n < 100 -> String.length (JS.toString n) = 2.
Proof.
  intros [H1 H2]. rewrite toString_step, length_append by exact H1.
  rewrite length_toString_1; [reflexivity|].
  apply Nat.Div0.div_lt_upper_bound; lia.
Qed.

Lemma length_toString_3 (n : nat) :
  100 <= n -> 3 <= String.length (JS.toString n).
Proof.
  intros H. rewrite toString_step, length_append by lia.
  assert (10 <= n / 10) by (apply Nat.div_le_lower_bound; lia).
  rewrite (toString_step (n / 10)), length_append by assumption.
  pose proof (length_toString_pos (n / 10 / 10)). cbn [String.length]. lia.
Qed.

Lemma padStart_2_0 (s : string) :
  JS.padStart 2 "0" s =
  match String.length s with
  | 0 => "00"
  | 1 => "0" ++ s
  | _ => s
  end.
Proof.
  unfold JS.padStart.
  destruct s as [|c [|c' s]]; reflexivity.
Qed.

Lemma length_pad2 (s : string) :
  String.length (JS.padStart 2 "0" s) = Nat.max 2 (String.length s).
Proof.
  rewrite padStart_2_0.
  destruct s as [|c [|c' s]]; simpl; try reflexivity.
Qed.

Lemma length_formatTime (n : nat) :
  String.length (formatTime n) =
  Nat.max 2 (String.length (JS.toString (n / 60))) + 3.
Proof.
  unfold formatTime. cbv zeta.
  rewrite length_append, length_append, !length_pad2.
  assert (Hs : n mod 60 < 60) by (apply Nat.mod_upper_bound; lia).
  assert (String.length (JS.toString (n mod 60)) <= 2).
  { destruct (Nat.lt_ge_cases (n mod 60) 10).
    - rewrite length_toString_1; lia.
    - rewrite length_toString_2; lia. }
  cbn [String.length]. lia.
Qed.

(** X7.  [formatTime] has its fixed width of five characters exactly for
    times below 100 minutes; from 100 minutes on the minutes field grows
    and the display is longer. *)
Theorem formatTime_width (n : nat) :
  (n < 100 * 60 -> String.length (formatTime n) = 5)
  /\ (100 * 60 <= n -> 5 < String.length (formatTime n)).
Proof.
  rewrite length_formatTime. split; intros H.
  - assert (n / 60 < 100) by (apply Nat.Div0.div_lt_upper_bound; lia).
    destruct (Nat.lt_ge_cases (n / 60) 10).
    + rewrite length_toString_1; lia.
    + rewrite length_toString_2; lia.
  - assert (100 <= n / 60) by (apply Nat.div_le_lower_bound; lia).
    pose proof (length_toString_3 (n / 60)). lia.
Qed.

Lemma digit_code (d : nat) : d < 10 -> nat_of_ascii (JS.digit d) = 48 + d.
Proof. intros H. unfold JS.digit. apply nat_ascii_embedding. lia. Qed.

Lemma digit_value_digit (d : nat) : d < 10 -> digit_value (JS.digit d) = d.
Proof. intros H. unfold digit_value. rewrite digit_code by exact H. lia. Qed.

Lemma is_digit_digit (d : nat) : d < 10 -> is_digit (JS.digit d) = true.
Proof.
  intros H. unfold is_digit. rewrite digit_code by exact H.
  apply andb_true_intro. split; apply Nat.leb_le; lia.
Qed.

Lemma list_ascii_of_append (a b : string) :
  list_ascii_of_string (a ++ b)
  = (list_ascii_of_string a ++ list_ascii_of_string b)%list.
Proof. induction a as [|c a IH]; simpl; [reflexivity | now rewrite IH]. Qed.

Lemma decimal_value_snoc (s : string) (c : ascii) :
  decimal_value (s ++ String c "") = 10 * decimal_value s + digit_value c.
Proof.
  unfold decimal_value.
  now rewrite list_ascii_of_append, fold_left_app.
Qed.

Lemma all_digits_append (a b : string) :
  all_digits (a ++ b) = all_digits a && all_digits b.
Proof.
  induction a as [|c a IH]; simpl; [reflexivity|].
  now rewrite IH, andb_assoc.
Qed.

Lemma decimal_value_toString : forall n, decimal_value (JS.toString n) = n.
Proof.
  apply toString_ind; intros n H.
  - rewrite toString_small by exact H.
    unfold decimal_value. cbn [list_ascii_of_string fold_left].
    rewrite digit_value_digit by exact H. lia.
  - intros IH. rewrite toString_step, decimal_value_snoc, IH by exact H.
    rewrite digit_value_digit by (apply Nat.mod_upper_bound; lia).
    symmetry. apply Nat.div_mod_eq.
Qed.

Lemma all_digits_toString : forall n, all_digits (JS.toString n) = true.
Proof.
  apply toString_ind; intros n H.
  - rewrite toString_small by exact H. cbn [all_digits].
    now rewrite is_digit_digit.
  - intros IH. rewrite toString_step, all_digits_append, IH by exact H.
    cbn [all_digits andb].
    rewrite is_digit_digit by (apply Nat.mod_upper_bound; lia).
    reflexivity.
Qed.

Lemma decimal_value_pad2 (s : string) :
  decimal_value (JS.padStart 2 "0" s) = decimal_value s.
Proof.
  rewrite padStart_2_0. destruct s as [|c [|c' s]]; reflexivity.
Qed.

Lemma all_digits_pad2 (s : string) :
  all_digits s = true -> all_digits (JS.padStart 2 "0" s) = true.
Proof.
  rewrite padStart_2_0. destruct s as [|c [|c' s]]; intros H.
  - reflexivity.
  - exact H.
  - exact H.
Qed.

Lemma colon_splits_once (x : string) :
  forall x' y y',
    all_digits x = true -> all_digits x' = true ->
    x ++ ":" ++ y = x' ++ ":" ++ y' -> x = x' /\ y = y'.
Proof.
  induction x as [|c x IH]; intros [|c' x'] y y' Hx Hx' E;
    cbn [append all_digits] in *.
  - injection E as E. now split.
  - injection E as Ec E. subst c'.
    apply andb_true_iff in Hx' as [Hc _]. discriminate.
  - injection E as Ec E. subst c.
    apply andb_true_iff in Hx as [Hc _]. discriminate.
  - injection E as Ec E. subst c'.
    apply andb_true_iff in Hx as [_ Hx].
    apply andb_true_iff in Hx' as [_ Hx'].
    destruct (IH x' y y' Hx Hx' E) as [-> ->]. now split.
Qed.

Lemma formatTime_injective (a b : nat) : formatTime a = formatTime b -> a = b.
Proof.
  unfold formatTime. cbv zeta. intros E.
  apply colon_splits_once in E;
    try (apply all_digits_pad2, all_digits_toString).
  destruct E as [Em Es].
  apply (f_equal decimal_value) in Em, Es.
  rewrite !decimal_value_pad2, !decimal_value_toString in Em, Es.
  rewrite (Nat.div_mod_eq a 60), (Nat.div_mod_eq b 60). now rewrite Em, Es.
Qed.

(** X8.  [formatTime] shows different times differently: two numbers of
    seconds are displayed by the same string only if they are equal. *)
Theorem formatTime_distinguishes (a b : nat) :
  String.eqb (formatTime a) (formatTime b) = Nat.eqb a b.
Proof.
  destruct (Nat.eqb_spec a b) as [->|Hne].
  - apply String.eqb_refl.
  - apply String.eqb_neq. intros E. apply Hne. now apply formatTime_injective.
Qed.

Lemma pad2_toString (m : nat) :
  m < 100 ->
  JS.padStart 2 "0" (JS.toString m)
  = String (JS.digit (m / 10)) (String (JS.digit (m mod 10)) "").
Proof.
  intros Hm. destruct (Nat.lt_ge_cases m 10) as [H|H].
  - rewrite toString_small, padStart_2_0 by exact H. cbn [String.length append].
    now rewrite Nat.div_small, Nat.mod_small by exact H.
  - rewrite toString_step by exact H.
    rewrite toString_small by (apply Nat.Div0.div_lt_upper_bound; lia).
    now rewrite padStart_2_0.
Qed.

(** X6.  Below 100 minutes [formatTime] is the two digits of the minutes,
    a colon, and the two digits of the seconds, zero-padded: the seconds
    field is the seconds modulo 60, never 60 or more. *)
Theorem formatTime_mm_ss (n : nat) :
  n < 100 * 60 ->
  formatTime n
  = String (JS.digit (n / 60 / 10))
      (String (JS.digit (n / 60 mod 10))
         (String ":"
            (String (JS.digit (n mod 60 / 10))
               (String (JS.digit (n mod 10)) "")))).
Proof.
  intros H. unfold formatTime. cbv zeta.
  assert (Hm : (n mod 60) mod 10 = n mod 10).
  { rewrite (Nat.div_mod_eq n 60) at 2.
    replace (60 * (n / 60) + n mod 60) with (n mod 60 + (6 * (n / 60)) * 10) by lia.
    now rewrite Nat.Div0.mod_add. }
  rewrite !pad2_toString, Hm.
  - reflexivity.
  - assert (n mod 60 < 60) by (apply Nat.mod_upper_bound; lia). lia.
  - apply Nat.Div0.div_lt_upper_bound; lia.
Qed.

Lemma step_recorder_recording (st : App) (ev : Event) :
  (mediaRecorderRef st = Some DOM.recording -> isRecording st = true) ->
  mediaRecorderRef (step st ev) = Some DOM.recording ->
  isRecording (step st ev) = true.
Proof.
  destruct ev; js_cases; intros H1 H2;
    try (apply H1; congruence); use_hyps; try congruence; auto.
Qed.

Lemma reachable_recorder_recording (st : App) :
  reachable st ->
  mediaRecorderRef st = Some DOM.recording -> isRecording st = true.
Proof.
  revert st.
  apply (reachable_ind
           (fun st => mediaRecorderRef st = Some DOM.recording ->
                      isRecording st = true)).
  - intros speech. cbn. discriminate.
  - intros st ev. apply step_recorder_recording.
Qed.

(** X9.  In any state the event loop reaches with [isRecording] clear,
    [stopRecording] does nothing at all: its test of the recorder's state
    fails, since a recorder records only while [isRecording] is set. *)
Theorem stopRecording_idle_no_op (speech : bool) (evs : list Event) :
  isRecording (run evs (mount speech)) = false ->
  exec stopRecording (run evs (mount speech)) = run evs (mount speech).
Proof.
  intros H. apply stopRecording_not_recording. intros E.
  assert (R : reachable (run evs (mount speech))) by now exists speech, evs.
  rewrite (reachable_recorder_recording _ R E) in H. discriminate.
Qed.

Lemma step_chunks_nonempty (st : App) (ev : Event) :
  forallb (fun b => Nat.ltb 0 (DOM.size b)) (audioChunksRef st) = true ->
  forallb (fun b => Nat.ltb 0 (DOM.size b)) (audioChunksRef (step st ev)) = true.
Proof.
  destruct ev; js_cases; intros H; try assumption; try reflexivity.
  rewrite forallb_app, H. cbn.
  match goal with E : DOM.size _ = _ |- _ => now rewrite E end.
Qed.

(** X10.  The buffer of audio chunks never holds an empty blob, whatever
    the recorder delivers. *)
Theorem audio_chunks_nonempty (speech : bool) (evs : list Event) :
  forallb (fun b => Nat.ltb 0 (DOM.size b))
          (audioChunksRef (run evs (mount speech))) = true.
Proof.
  apply (reachable_ind
           (fun st => forallb (fun b => Nat.ltb 0 (DOM.size b))
                              (audioChunksRef st) = true)).
  - reflexivity.
  - intros st ev. apply step_chunks_nonempty.
  - now exists speech, evs.
Qed.

Lemma step_silent (st : App) (ev : Event) : silent st -> silent (step st ev).
Proof.
  unfold silent. intros (H1 & H2 & H3 & H4 & H5 & H6).
  destruct st; cbn in *; subst.
  destruct ev; js_cases; repeat split; try assumption; try reflexivity;
    rewrite ?existsb_app, ?H6; try reflexivity.
Qed.

Lemma run_invariant (P : App -> Prop) (st0 : App) :
  P st0 ->
  (forall st ev, P st -> P (step st ev)) ->
  forall evs, P (run evs st0).
Proof.
  intros H0 Hs evs.
  induction evs as [|ev evs IH] using rev_ind; [exact H0|].
  rewrite run_app. now apply Hs.
Qed.

(** X11.  On a browser without the Web Speech API the transcript stays
    empty whatever happens, so the generate button stays disabled: no note
    is ever written, nothing is ever loading, and no completion request is
    ever sent. *)
Theorem without_speech_api_nothing_to_generate (evs : list Event) :
  transcript (run evs (mount false)) = ""
  /\ notes (run evs (mount false)) = ""
  /\ isLoading (run evs (mount false)) = false
  /\ isTranscribing (run evs (mount false)) = false
  /\ existsb requests_completion (effects (run evs (mount false))) = false.
Proof.
  assert (H : silent (run evs (mount false))).
  { apply run_invariant; [now repeat split | apply step_silent]. }
  unfold silent in H. tauto.
Qed.

Lemma step_no_request (st : App) (ev : Event) :
  no_credential_in [ev] = true ->
  existsb requests_completion (effects st) = false ->
  existsb requests_completion (effects (step st ev)) = false.
Proof.
  intros Hev H.
  destruct ev.
  4: { cbn in Hev. rewrite andb_true_r in Hev. apply negb_true_iff in Hev.
       unfold step, handle, generateButton. js_unfold.
       destruct (generateButton_disabled st); [exact H|].
       change (effects (exec (generation_start env) st)) with
         (effects (exec (generation_start env) st)).
       fold (exec (generation_start env) st).
       rewrite generation_start_refused by (right; exact Hev). exact H. }
  all: clear Hev; revert H; js_cases; intros H; try assumption;
    rewrite ?existsb_app, ?H; reflexivity.
Qed.

(** X12.  As long as no credential is configured at the clicks on the
    generate button, the trace never holds a completion request. *)
Theorem no_request_without_credential (speech : bool) (evs : list Event) :
  no_credential_in evs = true ->
  existsb requests_completion (effects (run evs (mount speech))) = false.
Proof.
  intros H.
  assert (G : forall st, existsb requests_completion (effects st) = false ->
                         existsb requests_completion (effects (run evs st)) = false).
  { induction evs as [|ev evs IH]; intros st Hst; [exact Hst|].
    unfold no_credential_in in H. cbn [forallb] in H.
    apply andb_true_iff in H as [Hev Hevs].
    change (run (ev :: evs) st) with (run evs (step st ev)).
    apply IH; [exact Hevs|].
    apply step_no_request; [|exact Hst].
    unfold no_credential_in. cbn [forallb]. now rewrite Hev. }
  now apply G.
Qed.

Lemma step_never_asked (st : App) (ev : Event) :
  never_asked_to_record st = true -> never_asked_to_record (step st ev) = true.
Proof.
  unfold never_asked_to_record. intros H.
  destruct ev.
  4: { destruct (generateButton_disabled st) eqn:D.
       - unfold step, handle, generateButton. js_unfold. now rewrite D.
       - destruct (generateButton_enabled env st D) as (-> & Hb).
         destruct (credential_configured env) eqn:C.
         + now rewrite generation_start_accepted.
         + rewrite generation_start_refused by (now right).
           now rewrite Hb. }
  all: revert H; js_cases; intros H; try assumption; reflexivity.
Qed.

(** X13.  Through the buttons, the first guard of [generateClinicalNotes]
    never fires: the generate button is disabled whenever the transcript is
    blank, so the status line never reads "Please record and transcribe
    audio first.". *)
Theorem first_guard_never_fires (speech : bool) (evs : list Event) :
  String.eqb (status (run evs (mount speech)))
             "Please record and transcribe audio first." = false.
Proof.
  apply negb_true_iff.
  apply (run_invariant (fun st => never_asked_to_record st = true));
    [reflexivity | apply step_never_asked].
Qed.


Lemma counter_step (st : App) (ev : Event) :
  recordingTime (step st ev) = recordingTime st
  \/ (exists id, ev = IntervalFires id
                 /\ existsb (Pos.eqb id) (intervals st) = true
                 /\ recordingTime (step st ev) = S (recordingTime st))
  \/ (may_start_recording ev = true
      /\ isRecording (step st ev) = true
      /\ recordingTime (step st ev) = 0).
Proof.
  destruct ev; try (js_cases; auto; fail).
  unfold step, handle, tick. js_unfold.
  destruct (existsb (Pos.eqb id) (intervals st)) eqn:E; [|now left].
  right; left. exists id. repeat split; [exact E|cbn; lia].
Qed.

Lemma tick_not_recording (st : App) (id : TimerId) :
  tracked st -> isRecording st = false -> step st (IntervalFires id) = st.
Proof.
  intros (_ & H2 & H3) Hr.
  unfold step, handle, tick. js_unfold.
  now rewrite H3, (H2 Hr).
Qed.

(** X14.  One event changes the elapsed seconds in one of two ways only:
    it is the firing of a live interval and adds one second; or it starts a
    recording and sets them to zero.  Where the recording bookkeeping is in
    order and the session is not recording, no interval is live, and a
    firing changes nothing at all. *)
Theorem counter_ticks_only_on_live_interval (st : App) (ev : Event) :
  (recordingTime (step st ev) = recordingTime st
   \/ (exists id, ev = IntervalFires id
                  /\ existsb (Pos.eqb id) (intervals st) = true
                  /\ recordingTime (step st ev) = S (recordingTime st))
   \/ (may_start_recording ev = true
       /\ isRecording (step st ev) = true
       /\ recordingTime (step st ev) = 0))
  /\ (tracked st -> isRecording st = false ->
      forall id, step st (IntervalFires id) = st).
Proof.
  split; [apply counter_step|].
  intros Ht Hr id. now apply tick_not_recording.
Qed.

(** X15.  The transcript is append-only: one event either extends it at
    its end (possibly by nothing), or it is a click on the record button, or
    the settling of the capture request of one, that starts a recording and
    empties it.  Recognition errors, the end of recognition and stopping
    never shorten or clear it. *)
Theorem transcript_append_only (st : App) (ev : Event) :
  (exists suffix, transcript (step st ev) = transcript st ++ suffix)
  \/ (may_start_recording ev = true
      /\ isRecording (step st ev) = true
      /\ transcript (step st ev) = "").
Proof.
  destruct ev;
    try (left; exists ""; rewrite append_nil_r; js_cases; reflexivity).
  - js_cases; auto; left; exists ""; now rewrite append_nil_r.
  - js_cases; auto; left; exists ""; now rewrite append_nil_r.
  - left. unfold step, handle. js_unfold.
    destruct (recognitionRef st).
    + fold (exec (onresult event) st). rewrite onresult_spec. now eexists.
    + exists "". now rewrite append_nil_r.
Qed.

(** X16.  The note is append-only: one event either extends it at its end
    (possibly by nothing), or it is a click on the record or the generate
    button, or the settling of the capture request of a click on the record
    button, that empties it. *)
Theorem notes_append_only (st : App) (ev : Event) :
  (exists suffix, notes (step st ev) = notes st ++ suffix)
  \/ (resets_notes ev = true /\ notes (step st ev) = "").
Proof.
  destruct ev;
    try (left; exists ""; rewrite append_nil_r; js_cases; reflexivity).
  - js_cases; auto; left; exists ""; now rewrite append_nil_r.
  - js_cases; auto; left; exists ""; now rewrite append_nil_r.
  - js_cases; auto; left; exists ""; now rewrite append_nil_r.
  - left. unfold step, handle. js_unfold.
    destruct (isLoading st).
    + rewrite onchunk_spec. now eexists.
    + exists "". now rewrite append_nil_r.
Qed.

(** X17.  When the capture request, the recorder's constructor or the
    recorder's [start] throws, the session is as before: recording flag,
    transcript, note, elapsed seconds, transcription flag and live intervals
    are unchanged, the recognizer is not started, and the status line
    reports the microphone error. *)
Theorem failure_before_recording_keeps_session (p : Platform) (st : App) :
  fails_before_recording p = true ->
  isRecording (exec (startRecording p) st) = isRecording st
  /\ transcript (exec (startRecording p) st) = transcript st
  /\ notes (exec (startRecording p) st) = notes st
  /\ recordingTime (exec (startRecording p) st) = recordingTime st
  /\ isTranscribing (exec (startRecording p) st) = isTranscribing st
  /\ intervals (exec (startRecording p) st) = intervals st
  /\ existsb starts_recognizer (effects (exec (startRecording p) st))
     = existsb starts_recognizer (effects st)
  /\ status (exec (startRecording p) st)
     = "Error: Could not access microphone. Please check permissions.".
Proof.
  unfold fails_before_recording, startRecording. js_unfold.
  destruct p as [[e1|] [e2|] [e3|] r]; cbn; intros H; try discriminate;
    repeat split; rewrite ?existsb_app; cbn; now rewrite ?orb_false_r.
Qed.

(** X18.  When the recorder has started and the recognizer's [start] then
    throws, the [catch] runs too late to undo the start: the recording is
    on, transcript, note and elapsed seconds are reset, but no interval is
    started, the transcription flag is not set, and the status line reports
    a microphone error. *)
Theorem recognizer_refusal_leaves_recording_without_clock
    (p : Platform) (e : Error) (r : DOM.SpeechRecognition) (st : App) :
  fails_before_recording p = false ->
  recognition_start p = Some e ->
  recognitionRef st = Some r ->
  isRecording (exec (startRecording p) st) = true
  /\ mediaRecorderRef (exec (startRecording p) st) = Some DOM.recording
  /\ transcript (exec (startRecording p) st) = ""
  /\ notes (exec (startRecording p) st) = ""
  /\ recordingTime (exec (startRecording p) st) = 0
  /\ intervals (exec (startRecording p) st) = intervals st
  /\ intervalRef (exec (startRecording p) st) = intervalRef st
  /\ isTranscribing (exec (startRecording p) st) = isTranscribing st
  /\ status (exec (startRecording p) st)
     = "Error: Could not access microphone. Please check permissions.".
Proof.
  unfold fails_before_recording, startRecording. js_unfold.
  destruct p as [[e1|] [e2|] [e3|] r']; cbn; intros H Hr Hs; try discriminate.
  rewrite Hs. cbn. rewrite Hr. cbn. repeat split.
Qed.

Lemma remove_keeps (x y : TimerId) (l : list TimerId) :
  x <> y -> In y l -> In y (remove Pos.eq_dec x l).
Proof. intros H Hin. apply in_in_remove; [congruence | exact Hin]. Qed.

Lemma started_twice_recording (st : App) :
  mediaRecorderRef (exec (startRecording granted)
                      (exec (startRecording granted) st))
  = Some DOM.recording.
Proof. rewrite startRecording_granted. reflexivity. Qed.

(** X5.  [startRecording] overwrites [intervalRef] without clearing the
    interval it held.  When it runs twice with no stop in between, as it
    does when two capture requests are pending at once (a second click
    before the first request settles) on a browser without a recognizer,
    [stopRecording] then clears the second interval only, and the first
    still advances the elapsed seconds. *)
Theorem second_start_leaks_first_interval (st : App) :
  recognitionRef st = None ->
  In (nextTimer st)
     (intervals (exec stopRecording
                   (exec (startRecording granted)
                      (exec (startRecording granted) st))))
  /\ isRecording (exec stopRecording
                    (exec (startRecording granted)
                       (exec (startRecording granted) st))) = false
  /\ recordingTime
       (step (exec stopRecording
                (exec (startRecording granted)
                   (exec (startRecording granted) st)))
             (IntervalFires (nextTimer st)))
     = S (recordingTime
            (exec stopRecording
               (exec (startRecording granted)
                  (exec (startRecording granted) st)))).
Proof.
  intros Hr.
  assert (Hin : In (nextTimer st)
     (intervals (exec stopRecording
                   (exec (startRecording granted)
                      (exec (startRecording granted) st))))).
  { rewrite (stopRecording_recording _ (started_twice_recording st)).
    rewrite !startRecording_granted. cbn [intervals intervalRef nextTimer].
    apply remove_keeps.
    - apply not_eq_sym, Pos.succ_discr.
    - apply in_or_app. left. apply in_or_app. right. now left. }
  split; [exact Hin|]. split.
  - rewrite (stopRecording_recording _ (started_twice_recording st)).
    reflexivity.
  - remember (exec stopRecording
                (exec (startRecording granted)
                   (exec (startRecording granted) st))) as s eqn:Hs.
    clear Hs. unfold step, handle, tick. js_unfold.
    assert (E : existsb (Pos.eqb (nextTimer st)) (intervals s) = true).
    { apply existsb_exists. exists (nextTimer st). split; [exact Hin|].
      apply Pos.eqb_refl. }
    rewrite E. cbn. lia.
Qed.

(** X19.  A result event that reports no final entry (only interim ones,
    or none at all because [resultIndex] is past the end) leaves the whole
    state as it is: interim text is never stored. *)
Theorem interim_only_event_changes_nothing
    (event : DOM.SpeechRecognitionEvent) (st : App) :
  existsb DOM.isFinal (reported event) = false ->
  exec (onresult event) st = st.
Proof.
  intros H. rewrite onresult_spec. unfold final_segments.
  assert (E : filter DOM.isFinal (reported event) = []).
  { induction (reported event) as [|r l IH]; [reflexivity|].
    cbn in *. apply orb_false_iff in H as [H1 H2]. rewrite H1. now apply IH. }
  rewrite E. cbn. now rewrite append_nil_r, set_transcript_same.
Qed.

Lemma stopRecording_keeps (st : App) :
  recognitionRef (exec stopRecording st) = recognitionRef st
  /\ transcript (exec stopRecording st) = transcript st
  /\ notes (exec stopRecording st) = notes st
  /\ recordingTime (exec stopRecording st) = recordingTime st.
Proof.
  destruct (mediaRecorderRef st) as [[ | | ]|] eqn:E.
  2: { rewrite stopRecording_recording by exact E. now repeat split. }
  all: rewrite stopRecording_not_recording by congruence; now repeat split.
Qed.

(** X20.  [onresult] does not look at [isRecording]: a result event
    delivered after [stopRecording] still appends its final segments to the
    transcript. *)
Theorem results_after_stop_are_kept
    (event : DOM.SpeechRecognitionEvent) (r : DOM.SpeechRecognition) (st : App) :
  recognitionRef st = Some r ->
  transcript (step (exec stopRecording st) (RecognitionResult event))
  = transcript st ++ JS.join (final_segments event).
Proof.
  intros Hr.
  destruct (stopRecording_keeps st) as (Hr' & Ht & _).
  rewrite Hr in Hr'.
  remember (exec stopRecording st) as s eqn:Hs. clear Hs.
  unfold step, handle. js_unfold. rewrite Hr'.
  fold (exec (onresult event) s).
  rewrite onresult_spec. cbn. now rewrite Ht.
Qed.

(** X21.  [onresult] keeps no record of what it has appended: an event
    delivered twice has its final segments appended twice. *)
Theorem redelivered_event_is_appended_again
    (event : DOM.SpeechRecognitionEvent) (st : App) :
  transcript (deliver [event; event] st)
  = transcript st ++ JS.join (final_segments event)
                  ++ JS.join (final_segments event).
Proof.
  rewrite deliver_spec. cbn [flat_map transcript set_transcript].
  now rewrite app_nil_r, join_app.
Qed.

Lemma startsWith_spec (sub : string) :
  forall s, JS.startsWith s sub = true <-> exists b, s = sub ++ b.
Proof.
  induction sub as [|c sub IH]; intros s; cbn.
  - split; [intros _; now exists s | reflexivity].
  - destruct s as [|c' s]; cbn.
    + split; [discriminate | intros (b & H); discriminate].
    + rewrite andb_true_iff, IH, Ascii.eqb_eq. split.
      * intros (-> & b & ->). now exists b.
      * intros (b & H). injection H as -> ->. split; [reflexivity | now exists b].
Qed.

Lemma includes_spec (s sub : string) :
  JS.includes s sub = true <-> exists a b, s = a ++ sub ++ b.
Proof.
  induction s as [|c s IH]; cbn [JS.includes].
  - rewrite orb_false_r, startsWith_spec. split.
    + intros (b & H). now exists "", b.
    + intros (a & b & H). destruct a; cbn in H; [now exists b | discriminate].
  - rewrite orb_true_iff, startsWith_spec, IH. split.
    + intros [(b & H) | (a & b & H)].
      * now exists "", b.
      * exists (String c a), b. cbn. now rewrite H.
    + intros (a & b & H). destruct a as [|c' a]; cbn in H.
      * left. now exists b.
      * right. injection H as _ H. now exists a, b.
Qed.

Lemma failure_statuses_show_alert
    (p : Platform) (env : Credentials) (r : Groq.Response) (e : Error) (st : App) :
  (fails_before_recording p = true ->
   statusIcon (exec (startRecording p) st) = Some AlertCircle)
  /\ (JS.blank (transcript st) = false -> credential_configured env = false ->
      statusIcon (exec (generateClinicalNotes env r) st) = Some AlertCircle)
  /\ statusIcon (exec (generation_settle (Some e)) st) = Some AlertCircle.
Proof.
  split; [|split].
  - unfold fails_before_recording, startRecording. js_unfold.
    destruct p as [[e1|] [e2|] [e3|] r']; cbn; intros H; try discriminate;
      reflexivity.
  - intros Hb Hc.
    rewrite generateClinicalNotes_refused, generation_start_refused
      by (right; exact Hc).
    now rewrite Hb.
  - reflexivity.
Qed.

(** X23.  The status line of a recognition error reads "Transcription
    error: " and the error code, with a small e: the alert icon is shown
    only if the code itself contains "Error"; otherwise the icon is the one
    the code's text and the loading flag select, for the usual codes the
    spinner while loading and none otherwise. *)
Theorem recognition_error_icon (e : Error) (st : App) :
  statusIcon (exec (onerror e) st)
  = if JS.includes e "Error" then Some AlertCircle
    else if JS.includes e "complete" || JS.includes e "generated"
         then Some CheckCircle
    else if isLoading st then Some Spinner
    else None.
Proof. reflexivity. Qed.

(** X24.  The clinical-notes panel always shows exactly one thing: the
    note when it is not empty, else the spinner while loading, else the
    placeholder. *)
Theorem notesPanel_one_item (st : App) :
  notesPanel st
  = [if JS.truthy (notes st) then NotesText (notes st)
     else if isLoading st then GeneratingSpinner
     else NotesPlaceholder].
Proof.
  unfold notesPanel.
  destruct (JS.truthy (notes st)), (isLoading st); reflexivity.
Qed.

Lemma completion_statuses_show_check (st : App) :
  statusIcon (exec (generation_settle None) st) = Some CheckCircle
  /\ statusIcon (exec onend st) = Some CheckCircle.
Proof. split; reflexivity. Qed.

(** X22.  Every failure of capture, of the credential check and of the
    generation leaves a status line that shows the alert icon; the end of a
    generation and the end of the recognition leave one that shows the
    check icon. *)
Theorem outcome_icons
    (p : Platform) (env : Credentials) (r : Groq.Response) (e : Error) (st : App) :
  (fails_before_recording p = true ->
   statusIcon (exec (startRecording p) st) = Some AlertCircle)
  /\ (JS.blank (transcript st) = false -> credential_configured env = false ->
      statusIcon (exec (generateClinicalNotes env r) st) = Some AlertCircle)
  /\ statusIcon (exec (generation_settle (Some e)) st) = Some AlertCircle
  /\ statusIcon (exec (generation_settle None) st) = Some CheckCircle
  /\ statusIcon (exec onend st) = Some CheckCircle.
Proof.
  destruct (failure_statuses_show_alert p env r e st) as (H1 & H2 & H3).
  destruct (completion_statuses_show_check st) as (H4 & H5).
  repeat split; assumption.
Qed.

(** X25.  While nothing is loading, a click on the record button toggles
    the recording whenever the platform grants what is asked and the
    recorder held records while [isRecording] is set: it stops a session
    that records and starts one otherwise.  Where [isRecording] is set and
    the recorder held does not record, the click changes nothing, whatever
    the platform answers: the session cannot be stopped. *)
Theorem record_button_toggles (st : App) :
  isLoading st = false ->
  ((isRecording st = true -> mediaRecorderRef st = Some DOM.recording) ->
   isRecording (step st (ClickRecord granted)) = negb (isRecording st))
  /\ (isRecording st = true -> mediaRecorderRef st <> Some DOM.recording ->
      forall p, step st (ClickRecord p) = st
                /\ step st ClickRecordPending = st).
Proof.
  intros Hl. split.
  - intros H1. destruct (isRecording st) eqn:Hr.
    + assert (E : step st (ClickRecord granted) = exec stopRecording st).
      { unfold step, handle, recordButton. js_unfold. now rewrite Hl, Hr. }
      rewrite E, stopRecording_recording by (now apply H1). reflexivity.
    + assert (E : step st (ClickRecord granted)
                  = exec (startRecording granted) st).
      { unfold step, handle, recordButton. js_unfold. now rewrite Hl, Hr. }
      rewrite E, startRecording_granted. reflexivity.
  - intros Hr Hm p. split.
    + assert (E : step st (ClickRecord p) = exec stopRecording st).
      { unfold step, handle, recordButton. js_unfold. now rewrite Hl, Hr. }
      rewrite E. now apply stopRecording_not_recording.
    + assert (E : step st ClickRecordPending = exec stopRecording st).
      { unfold step, handle, recordButton_pending. js_unfold.
        now rewrite Hl, Hr. }
      rewrite E. now apply stopRecording_not_recording.
Qed.

(** X26.  A click on the generate button, when the button is enabled and a
    credential is configured, sends exactly one completion request, whose
    prompt is the instructions followed by the transcript as it is at the
    click; it empties the note, sets the loading flag and the status line,
    and changes nothing else. *)
Theorem generate_click_accepted (env : Credentials) (st : App) :
  generateButton_disabled st = false ->
  credential_configured env = true ->
  step st (ClickGenerate env)
  = set_effects
      (effects st ++ [ConsoleLog (VITE_GROQ_API_KEY env);
                      ChatCompletionsCreate "openai/gpt-oss-20b"
                        (clinicalPrompt (transcript st))])
      (set_notes ""
         (set_isLoading true
            (set_status "Generating clinical notes..." st))).
Proof.
  intros Hen Hc.
  destruct (generateButton_enabled env st Hen) as (-> & Hb).
  now apply generation_start_accepted.
Qed.

(** ** The properties above at sample values *)

Lemma formatTime_mm_ss_witness : formatTime 725 = "12:05".
Proof. apply (formatTime_mm_ss 725). lia. Defined.

Lemma formatTime_width_witness :
  String.length (formatTime 725) = 5
  /\ 5 < String.length (formatTime (100 * 60)).
Proof.
  split.
  - apply (proj1 (formatTime_width 725)). lia.
  - apply (proj2 (formatTime_width (100 * 60))). lia.
Defined.

Lemma stopRecording_idle_no_op_witness :
  exec stopRecording recorded = recorded.
Proof.
  apply (stopRecording_idle_no_op true
           [ClickRecord granted;
            RecognitionResult
              {| DOM.resultIndex := 0;
                 DOM.results := [final "chest pain"; interim "two days"] |};
            IntervalFires 1%positive;
            ClickRecord granted;
            RecorderStopped;
            RecognitionEnd]).
  reflexivity.
Defined.

Lemma no_request_without_credential_witness :
  existsb requests_completion
    (effects (run [ClickRecord granted;
                   RecognitionResult
                     {| DOM.resultIndex := 0;
                        DOM.results := [final "chest pain"] |};
                   ClickRecord granted;
                   ClickGenerate without_key;
                   StreamChunk (fragment "Subjective: ")]
                  (mount true)))
  = false.
Proof.
  apply (no_request_without_credential true
           [ClickRecord granted;
            RecognitionResult
              {| DOM.resultIndex := 0;
                 DOM.results := [final "chest pain"] |};
            ClickRecord granted;
            ClickGenerate without_key;
            StreamChunk (fragment "Subjective: ")]).
  reflexivity.
Defined.

Lemma failure_before_recording_keeps_session_witness :
  isRecording (exec (startRecording unsupported_recorder) recorded) = false
  /\ transcript (exec (startRecording unsupported_recorder) recorded)
     = "chest pain "
  /\ notes (exec (startRecording unsupported_recorder) recorded) = notes recorded
  /\ recordingTime (exec (startRecording unsupported_recorder) recorded) = 1
  /\ isTranscribing (exec (startRecording unsupported_recorder) recorded)
     = isTranscribing recorded
  /\ intervals (exec (startRecording unsupported_recorder) recorded)
     = intervals recorded
  /\ existsb starts_recognizer
       (effects (exec (startRecording unsupported_recorder) recorded))
     = existsb starts_recognizer (effects recorded)
  /\ status (exec (startRecording unsupported_recorder) recorded)
     = "Error: Could not access microphone. Please check permissions.".
Proof.
  apply (failure_before_recording_keeps_session unsupported_recorder recorded).
  reflexivity.
Defined.

Lemma recognizer_refusal_witness :
  isRecording (exec (startRecording recognizer_busy) recorded) = true
  /\ mediaRecorderRef (exec (startRecording recognizer_busy) recorded)
     = Some DOM.recording
  /\ transcript (exec (startRecording recognizer_busy) recorded) = ""
  /\ notes (exec (startRecording recognizer_busy) recorded) = ""
  /\ recordingTime (exec (startRecording recognizer_busy) recorded) = 0
  /\ intervals (exec (startRecording recognizer_busy) recorded)
     = intervals recorded
  /\ intervalRef (exec (startRecording recognizer_busy) recorded)
     = intervalRef recorded
  /\ isTranscribing (exec (startRecording recognizer_busy) recorded)
     = isTranscribing recorded
  /\ status (exec (startRecording recognizer_busy) recorded)
     = "Error: Could not access microphone. Please check permissions.".
Proof.
  apply (recognizer_refusal_leaves_recording_without_clock
           recognizer_busy "InvalidStateError"
           {| DOM.continuous := true; DOM.interimResults := true;
              DOM.lang := "en-US" |}
           recorded);
    reflexivity.
Defined.

Lemma second_start_leaks_first_interval_witness :
  In 1%positive
     (intervals (exec stopRecording
                   (exec (startRecording granted)
                      (exec (startRecording granted) (mount false)))))
  /\ isRecording (exec stopRecording
                    (exec (startRecording granted)
                       (exec (startRecording granted) (mount false)))) = false
  /\ recordingTime
       (step (exec stopRecording
                (exec (startRecording granted)
                   (exec (startRecording granted) (mount false))))
             (IntervalFires 1%positive))
     = 1.
Proof.
  apply (second_start_leaks_first_interval (mount false)).
  reflexivity.
Defined.

Lemma interim_only_event_changes_nothing_witness :
  exec (onresult {| DOM.resultIndex := 1;
                    DOM.results := [final "chest pain"; interim "two"] |})
       still_recording
  = still_recording.
Proof.
  apply (interim_only_event_changes_nothing
           {| DOM.resultIndex := 1;
              DOM.results := [final "chest pain"; interim "two"] |}
           still_recording).
  reflexivity.
Defined.

Lemma results_after_stop_are_kept_witness :
  transcript
    (step (exec stopRecording still_recording)
          (RecognitionResult
             {| DOM.resultIndex := 1;
                DOM.results := [final "chest pain"; final "two days"] |}))
  = "chest pain two days ".
Proof.
  apply (results_after_stop_are_kept
           {| DOM.resultIndex := 1;
              DOM.results := [final "chest pain"; final "two days"] |}
           {| DOM.continuous := true; DOM.interimResults := true;
              DOM.lang := "en-US" |}
           still_recording).
  reflexivity.
Defined.

Lemma record_button_toggles_witness :
  isRecording (step recorded (ClickRecord granted)) = true
  /\ isRecording (step still_recording (ClickRecord granted)) = false
  /\ step recorder_ended (ClickRecord granted) = recorder_ended.
Proof.
  split; [|split].
  - apply (proj1 (record_button_toggles recorded eq_refl)).
    intros H; vm_compute in H; discriminate.
  - apply (proj1 (record_button_toggles still_recording eq_refl)).
    intros _; reflexivity.
  - assert (H : mediaRecorderRef recorder_ended <> Some DOM.recording)
      by (vm_compute; discriminate).
    exact (proj1 (proj2 (record_button_toggles recorder_ended eq_refl)
                        eq_refl H granted)).
Defined.

Lemma generate_click_accepted_witness :
  step recorded (ClickGenerate with_key)
  = set_effects
      (effects recorded ++ [ConsoleLog (Some "gsk_test");
                            ChatCompletionsCreate "openai/gpt-oss-20b"
                              (clinicalPrompt "chest pain ")])
      (set_notes ""
         (set_isLoading true
            (set_status "Generating clinical notes..." recorded))).
Proof.
  apply (generate_click_accepted with_key recorded); reflexivity.
Defined.
